(** * Variant-QC job graph construction (joint_calling/jobs/variant_qc.py)
      and final-filter validation (scripts/final_filter.py)

    The job graph is built against a [hailtop.batch.Batch]: a growing table
    of mutable [Job] objects.  A job handle is the allocation index of the
    job in that table, so that [depends_on] on a handle updates the shared
    object every other holder of the handle sees.  The file gives the model
    of the two sources first, then the graph written as a value, then the
    equation between the two, then the claims.  Models of the scripts
    release_vcf_prepare_ht.py and generate_qc_annotations.py and of the body
    of [generate_final_filter_ht] stand with the definitions; what is proved
    of them, and further of the job graph, comes after the claims. *)

From Stdlib Require Import Ascii QArith.
From stdpp Require Import gmap strings list pretty.

Open Scope string_scope.
Open Scope list_scope.

(** * The model

    ** Python helpers *)

(** Truthiness of an [Optional[str]]: [None] and the empty string are falsy. *)
Definition truthy_str (o : option string) : bool :=
  match o with
  | Some s => negb (String.eqb s "")
  | None => false
  end.

(** Truthiness of an [Optional[List[_]]]: [None] and [[]] are falsy. *)
Definition truthy_list {A : Type} (o : option (list A)) : bool :=
  match o with
  | Some (_ :: _) => true
  | _ => false
  end.

(** [xs or []], and the star-expansion [*xs] of a truthy [xs]. *)
Definition or_nil {A : Type} (o : option (list A)) : list A :=
  match o with
  | Some xs => xs
  | None => []
  end.

(** Rendering of an [Optional[str]] inside an f-string. *)
Definition fmt_opt (o : option string) : string :=
  match o with
  | Some s => s
  | None => "None"
  end.

Definition ends_with_sep (s : string) : bool :=
  match String.get (pred (String.length s)) s with
  | Some c => Ascii.eqb c "/"%char
  | None => false
  end.

(** [os.path.join(a, b)] (posixpath, two components). *)
Definition join (a b : string) : string :=
  if String.prefix "/" b then b
  else if String.eqb a "" || ends_with_sep a then a +:+ b
  else a +:+ "/" +:+ b.

(** ** The batch: jobs, clusters and the world outside *)

(** What a job does when it is scheduled. *)
Inductive Action :=
  (** registered on a Dataproc cluster with a command line *)
  | Command (cluster : nat) (cmd : string)
  (** [b.new_job(name)] with no command attached *)
  | Placeholder
  (** the node returned by the AS-VQSR sub-pipeline *)
  | SubPipeline (output : string).

Record Job := mkJob {
  job_name : string;
  job_action : Action;
  job_dependencies : gset nat
}.

Record Cluster := mkCluster {
  cluster_name : string;
  cluster_num_workers : Z;
  cluster_is_test : bool;
  cluster_long : bool;
  cluster_depends_on : list nat
}.

Record Batch := mkBatch {
  jobs : list Job;
  clusters : list Cluster
}.

(** Everything the construction reads from outside the batch. *)
Record Env := mkEnv {
  (** [utils.file_exists]: the state of the artifact store. *)
  file_exists : string → bool;
  (** [str(uuid.uuid4())] as drawn by this invocation. *)
  uuid4 : string;
  (** [utils.SCRIPTS_DIR]. *)
  SCRIPTS_DIR : string;
  (** [ptrn.format(CHROM=chrom)]. *)
  format_CHROM : string → string → string
}.

(** [utils.can_reuse] takes one path or a list of paths. *)
Inductive fpath :=
  | Path (fp : string)
  | Paths (fps : list string).

(** Modelled from the spec: [utils.can_reuse] (joint_calling/utils.py is not
    part of the sources).  It returns false unconditionally when the
    overwrite flag is set, and otherwise true iff every listed path exists
    in the backing store. *)
Definition can_reuse (env : Env) (fp : fpath) (overwrite : bool) : bool :=
  if overwrite then false
  else match fp with
       | Path p => file_exists env p
       | Paths ps => forallb (file_exists env) ps
       end.

(** ** Graph construction as a state transformer over the batch *)

Definition Build (A : Type) : Type := Batch → A * Batch.

Definition ret {A : Type} (a : A) : Build A := λ b, (a, b).

Definition bind {A B : Type} (m : Build A) (k : A → Build B) : Build B :=
  λ b, let '(a, b') := m b in k a b'.

Declare Scope build_scope.
Delimit Scope build_scope with build.
Bind Scope build_scope with Build.

Notation "x <- m ;; k" := (bind m (λ x, k))
  (at level 100, m at next level, right associativity,
   format "'[v' x  <-  m  ;; '/' k ']'") : build_scope.

Notation "m ;;; k" := (bind m (λ _, k))
  (at level 100, right associativity,
   format "'[v' m  ;;; '/' k ']'") : build_scope.

Definition push_job (j : Job) : Build nat :=
  λ b, (length (jobs b), mkBatch (jobs b ++ [j]) (clusters b)).

(** [b.new_job(name)]: a fresh job with no command and no dependencies. *)
Definition new_job (name : string) : Build nat :=
  push_job (mkJob name Placeholder ∅).

(** [Job.depends_on]: hailtop keeps the dependencies of a job in a set, and
    adds every job it is given to that set. *)
Definition add_dependencies (upstream : list nat) (j : Job) : Job :=
  mkJob (job_name j) (job_action j) (job_dependencies j ∪ list_to_set upstream).

Definition Job_depends_on (job : nat) (upstream : list nat) : Build unit :=
  λ b, (tt, mkBatch (alter (add_dependencies upstream) job (jobs b)) (clusters b)).

(** Modelled from the spec: [dataproc.get_cluster] (joint_calling/dataproc.py
    is not part of the sources).  Each call provisions a distinct named
    executor; [depends_on] seeds the executor's own readiness gate and
    [long] marks it long-lived. *)
Definition get_cluster (name : string) (num_workers : Z) (is_test : bool)
    (depends_on : option (list nat)) (long : bool) : Build nat :=
  λ b, (length (clusters b),
        mkBatch (jobs b)
                (clusters b ++ [mkCluster name num_workers is_test long (or_nil depends_on)])).

(** Modelled from the spec: [DataprocCluster.add_job] (joint_calling/dataproc.py
    is not part of the sources).  It registers a stage carrying the command on
    the executor; stage-level edges are only those added by [Job_depends_on]. *)
Definition add_job (cluster : nat) (cmd : string) (job_name : string) : Build nat :=
  push_job (mkJob job_name (Command cluster cmd) ∅).

(** Modelled from the spec: [add_vqsr_jobs] (joint_calling/jobs/vqsr.py is not
    part of the sources).  The recalibration pipeline is opaque: one node,
    depending on the upstream dependencies, that stands for the job producing
    [output_vcf_path]. *)
Definition add_vqsr_jobs (combined_mt_path hard_filter_ht_path meta_ht_path : string)
    (gvcf_count : Z) (work_bucket web_bucket : string) (depends_on : list nat)
    (vqsr_params_d : list (string * string)) (scatter_count : Z)
    (output_vcf_path : string) (overwrite : bool) : Build nat :=
  push_job (mkJob "AS-VQSR" (SubPipeline output_vcf_path) (list_to_set depends_on)).

(** The two realised forms of a stage. *)
Definition is_reused (j : Job) : bool :=
  match job_action j with
  | Placeholder => true
  | _ => false
  end.

Definition is_executed (j : Job) : bool := negb (is_reused j).

Definition job_command (j : Job) : option string :=
  match job_action j with
  | Command _ cmd => Some cmd
  | _ => None
  end.

(** ** joint_calling/jobs/variant_qc.py: the command lines *)

Section Commands.

Variable env : Env.

Definition script (file : string) : string := SCRIPTS_DIR env +:+ "/" +:+ file.

(** lines 70-73 *)
Definition generate_info_cmd (raw_combined_mt_path info_ht_path info_split_ht_path : string) :=
  script "generate_info_ht.py" +:+ " --overwrite "
  +:+ "--mt " +:+ raw_combined_mt_path +:+ " "
  +:+ "--out-info-ht " +:+ info_ht_path +:+ " "
  +:+ "--out-split-info-ht " +:+ info_split_ht_path.

(** lines 88-98 *)
Definition generate_annotations_cmd (overwrite : bool)
    (raw_combined_mt_path hard_filter_ht_path meta_ht_path
     allele_data_ht_path qc_ac_ht_path : string)
    (fam_stats_ht_path ped_file : option string)
    (work_bucket : string) (scatter_count : Z) :=
  script "generate_variant_qc_annotations.py" +:+ " "
  +:+ (if overwrite then "--overwrite " else "")
  +:+ "--mt " +:+ raw_combined_mt_path +:+ " "
  +:+ "--hard-filtered-samples-ht " +:+ hard_filter_ht_path +:+ " "
  +:+ "--meta-ht " +:+ meta_ht_path +:+ " "
  +:+ "--out-allele-data-ht " +:+ allele_data_ht_path +:+ " "
  +:+ "--out-qc-ac-ht " +:+ qc_ac_ht_path +:+ " "
  +:+ (if truthy_str ped_file
       then "--out-fam-stats-ht " +:+ fmt_opt fam_stats_ht_path +:+ " " else "")
  +:+ (if truthy_str ped_file
       then "--fam-file " +:+ fmt_opt ped_file +:+ " " else "")
  +:+ "--bucket " +:+ work_bucket +:+ " "
  +:+ "--n-partitions " +:+ pretty (scatter_count * 25)%Z.

(** lines 110-115 *)
Definition generate_freq_cmd
    (raw_combined_mt_path hard_filter_ht_path meta_ht_path freq_ht_path work_bucket : string) :=
  script "generate_freq_data.py" +:+ " --overwrite "
  +:+ "--mt " +:+ raw_combined_mt_path +:+ " "
  +:+ "--hard-filtered-samples-ht " +:+ hard_filter_ht_path +:+ " "
  +:+ "--meta-ht " +:+ meta_ht_path +:+ " "
  +:+ "--out-ht " +:+ freq_ht_path +:+ " "
  +:+ "--bucket " +:+ work_bucket +:+ " ".

(** lines 127-136 *)
Definition create_rf_annotations_cmd (info_split_ht_path freq_ht_path : string)
    (fam_stats_ht_path : option string)
    (allele_data_ht_path qc_ac_ht_path work_bucket rf_annotations_ht_path : string)
    (scatter_count : Z) :=
  script "create_rf_annotations.py" +:+ " --overwrite "
  +:+ "--info-split-ht " +:+ info_split_ht_path +:+ " "
  +:+ "--freq-ht " +:+ freq_ht_path +:+ " "
  +:+ (if truthy_str fam_stats_ht_path
       then "--fam-stats-ht " +:+ fmt_opt fam_stats_ht_path +:+ " " else "")
  +:+ "--allele-data-ht " +:+ allele_data_ht_path +:+ " "
  +:+ "--qc-ac-ht " +:+ qc_ac_ht_path +:+ " "
  +:+ "--bucket " +:+ work_bucket +:+ " "
  +:+ "--use-adj-genotypes "
  +:+ "--out-ht " +:+ rf_annotations_ht_path +:+ " "
  +:+ "--n-partitions " +:+ pretty (scatter_count * 25)%Z.

(** lines 158-163 *)
Definition random_forest_cmd
    (rf_annotations_ht_path work_bucket rf_result_ht_path rf_model_id : string) :=
  script "random_forest.py" +:+ " --overwrite "
  +:+ "--annotations-ht " +:+ rf_annotations_ht_path +:+ " "
  +:+ "--bucket " +:+ work_bucket +:+ " "
  +:+ "--use-adj-genotypes "
  +:+ "--out-results-ht " +:+ rf_result_ht_path +:+ " "
  +:+ "--out-model-id " +:+ rf_model_id +:+ " ".

(** lines 237-243 *)
Definition make_finalised_mt_cmd
    (raw_combined_mt_path final_filter_ht_path freq_ht_path info_split_ht_path
     out_filtered_combined_mt_path meta_ht_path : string) :=
  script "make_finalised_mt.py" +:+ " --overwrite "
  +:+ "--mt " +:+ raw_combined_mt_path +:+ " "
  +:+ "--final-filter-ht " +:+ final_filter_ht_path +:+ " "
  +:+ "--freq-ht " +:+ freq_ht_path +:+ " "
  +:+ "--info-ht " +:+ info_split_ht_path +:+ " "
  +:+ "--out-mt " +:+ out_filtered_combined_mt_path +:+ " "
  +:+ "--meta-ht " +:+ meta_ht_path +:+ " ".

(** lines 256-259 *)
Definition release_vcf_prepare_ht_cmd
    (out_filtered_combined_mt_path export_ht_path export_vcf_header_txt : string) :=
  script "release_vcf_prepare_ht.py" +:+ " "
  +:+ "--mt " +:+ out_filtered_combined_mt_path +:+ " "
  +:+ "--out-ht " +:+ export_ht_path +:+ " "
  +:+ "--out-vcf-header-txt " +:+ export_vcf_header_txt.

(** lines 273-278 *)
Definition release_vcf_export_chrom_cmd
    (export_ht_path export_vcf_header_txt vcf_path project_name chrom : string) :=
  script "release_vcf_export_chrom.py" +:+ " "
  +:+ "--ht " +:+ export_ht_path +:+ " "
  +:+ "--vcf-header-txt " +:+ export_vcf_header_txt +:+ " "
  +:+ "--out-vcf " +:+ vcf_path +:+ " "
  +:+ "--name " +:+ project_name +:+ " "
  +:+ "--chromosome chr" +:+ chrom.

(** lines 312-321 *)
Definition rf_evaluation_cmd
    (combined_mt_path rf_annotations_ht_path info_split_ht_path : string)
    (fam_stats_ht_path : option string)
    (rf_result_ht_path work_bucket score_bin_ht_path score_bin_agg_ht_path : string) :=
  script "evaluation.py" +:+ " --overwrite "
  +:+ "--mt " +:+ combined_mt_path +:+ " "
  +:+ "--rf-annotations-ht " +:+ rf_annotations_ht_path +:+ " "
  +:+ "--info-split-ht " +:+ info_split_ht_path +:+ " "
  +:+ (if truthy_str fam_stats_ht_path
       then "--fam-stats-ht " +:+ fmt_opt fam_stats_ht_path +:+ " " else "")
  +:+ "--rf-results-ht " +:+ rf_result_ht_path +:+ " "
  +:+ "--bucket " +:+ work_bucket +:+ " "
  +:+ "--out-bin-ht " +:+ score_bin_ht_path +:+ " "
  +:+ "--out-aggregated-bin-ht " +:+ score_bin_agg_ht_path +:+ " "
  +:+ "--run-sanity-checks ".

(** lines 333-341 *)
Definition rf_final_filter_cmd
    (final_filter_ht_path rf_model_id info_split_ht_path freq_ht_path
     score_bin_ht_path score_bin_agg_ht_path work_bucket : string) :=
  script "final_filter.py" +:+ " --overwrite "
  +:+ "--out-final-filter-ht " +:+ final_filter_ht_path +:+ " "
  +:+ "--model-id " +:+ rf_model_id +:+ " "
  +:+ "--model-name RF "
  +:+ "--score-name RF "
  +:+ "--info-split-ht " +:+ info_split_ht_path +:+ " "
  +:+ "--freq-ht " +:+ freq_ht_path +:+ " "
  +:+ "--score-bin-ht " +:+ score_bin_ht_path +:+ " "
  +:+ "--score-bin-agg-ht " +:+ score_bin_agg_ht_path +:+ " "
  +:+ "--bucket " +:+ work_bucket +:+ " ".

(** lines 377-381 *)
Definition load_vqsr_cmd
    (vqsr_filters_split_ht_path final_gathered_vcf_path work_bucket : string) :=
  script "load_vqsr.py" +:+ " --overwrite "
  +:+ "--split-multiallelic "
  +:+ "--out-path " +:+ vqsr_filters_split_ht_path +:+ " "
  +:+ "--vqsr-vcf-path " +:+ final_gathered_vcf_path +:+ " "
  +:+ "--bucket " +:+ work_bucket +:+ " ".

(** lines 397-411 *)
Definition vqsr_evaluation_cmd
    (combined_mt_path rf_annotations_ht_path info_split_ht_path : string)
    (fam_stats_ht_path rf_result_ht_path : option string)
    (vqsr_filters_split_ht_path work_bucket
     score_bin_ht_path score_bin_agg_ht_path : string) :=
  script "evaluation.py" +:+ " --overwrite "
  +:+ "--mt " +:+ combined_mt_path +:+ " "
  +:+ "--rf-annotations-ht " +:+ rf_annotations_ht_path +:+ " "
  +:+ "--info-split-ht " +:+ info_split_ht_path +:+ " "
  +:+ (if truthy_str fam_stats_ht_path
       then "--fam-stats-ht " +:+ fmt_opt fam_stats_ht_path +:+ " " else "")
  +:+ (if truthy_str (Some rf_annotations_ht_path) && truthy_str rf_result_ht_path
       then "--rf-result-ht " +:+ fmt_opt rf_result_ht_path +:+ " " else "")
  +:+ "--vqsr-filters-split-ht " +:+ vqsr_filters_split_ht_path +:+ " "
  +:+ "--bucket " +:+ work_bucket +:+ " "
  +:+ "--out-bin-ht " +:+ score_bin_ht_path +:+ " "
  +:+ "--out-aggregated-bin-ht " +:+ score_bin_agg_ht_path +:+ " "
  +:+ "--run-sanity-checks ".

(** lines 422-432 *)
Definition vqsr_final_filter_cmd
    (output_ht_path vqsr_filters_split_ht_path vqsr_model_id info_split_ht_path
     freq_ht_path score_bin_ht_path score_bin_agg_ht_path work_bucket : string) :=
  script "final_filter.py" +:+ " --overwrite "
  +:+ "--out-final-filter-ht " +:+ output_ht_path +:+ " "
  +:+ "--vqsr-filters-split-ht " +:+ vqsr_filters_split_ht_path +:+ " "
  +:+ "--model-id " +:+ vqsr_model_id +:+ " "
  +:+ "--model-name VQSR "
  +:+ "--score-name AS_VQSLOD "
  +:+ "--info-split-ht " +:+ info_split_ht_path +:+ " "
  +:+ "--freq-ht " +:+ freq_ht_path +:+ " "
  +:+ "--score-bin-ht " +:+ score_bin_ht_path +:+ " "
  +:+ "--score-bin-agg-ht " +:+ score_bin_agg_ht_path +:+ " "
  +:+ "--bucket " +:+ work_bucket +:+ " ".

End Commands.

(** ** add_rf_eval_jobs (lines 288-348) *)

(** The local job variables of [add_rf_eval_jobs] at its return. *)
Record RfEvalFrame := mkRfEvalFrame {
  rf_eval_job : nat;
  rf_final_filter_job : nat;
  rf_final_filter_ht_path : string
}.

Definition add_rf_eval_jobs_frame (env : Env) (dataproc_cluster : nat)
    (combined_mt_path info_split_ht_path rf_result_ht_path rf_annotations_ht_path : string)
    (fam_stats_ht_path : option string)
    (freq_ht_path rf_model_id work_bucket : string)
    (overwrite : bool) (depends_on : option (list nat)) : Build RfEvalFrame :=
  (let job_name := "RF: evaluation" in
   let score_bin_ht_path := join work_bucket "rf-score-bin.ht" in
   let score_bin_agg_ht_path := join work_bucket "rf-score-agg-bin.ht" in
   eval_job <-
     (if overwrite || negb (file_exists env score_bin_ht_path)
      then
        eval_job <- add_job dataproc_cluster
          (rf_evaluation_cmd env combined_mt_path rf_annotations_ht_path
             info_split_ht_path fam_stats_ht_path rf_result_ht_path work_bucket
             score_bin_ht_path score_bin_agg_ht_path)
          job_name ;;
        (if truthy_list depends_on
         then Job_depends_on eval_job (or_nil depends_on)
         else ret tt) ;;;
        ret eval_job
      else new_job (job_name +:+ " [reuse]")) ;;
   let job_name := "RF: final filter" in
   let final_filter_ht_path := join work_bucket "final-filter.ht" in
   final_filter_job <-
     (if overwrite || negb (file_exists env final_filter_ht_path)
      then
        final_filter_job <- add_job dataproc_cluster
          (rf_final_filter_cmd env final_filter_ht_path rf_model_id
             info_split_ht_path freq_ht_path score_bin_ht_path
             score_bin_agg_ht_path work_bucket)
          job_name ;;
        Job_depends_on final_filter_job [eval_job] ;;;
        ret final_filter_job
      else new_job (job_name +:+ " [reuse]")) ;;
   ret (mkRfEvalFrame eval_job final_filter_job final_filter_ht_path))%build.

(** The function as the source returns it: the final-filter job and the
    final-filter table path. *)
Definition add_rf_eval_jobs (env : Env) (dataproc_cluster : nat)
    (combined_mt_path info_split_ht_path rf_result_ht_path rf_annotations_ht_path : string)
    (fam_stats_ht_path : option string)
    (freq_ht_path rf_model_id work_bucket : string)
    (overwrite : bool) (depends_on : option (list nat)) : Build (nat * string) :=
  (fr <- add_rf_eval_jobs_frame env dataproc_cluster combined_mt_path
           info_split_ht_path rf_result_ht_path rf_annotations_ht_path
           fam_stats_ht_path freq_ht_path rf_model_id work_bucket overwrite
           depends_on ;;
   ret (rf_final_filter_job fr, rf_final_filter_ht_path fr))%build.

(** ** add_vqsr_eval_jobs (lines 351-438) *)

Record VqsrEvalFrame := mkVqsrEvalFrame {
  load_vqsr_job : nat;
  vqsr_eval_job : nat;
  vqsr_final_filter_job : nat
}.

Definition add_vqsr_eval_jobs_frame (env : Env) (dataproc_cluster : nat)
    (combined_mt_path rf_annotations_ht_path info_split_ht_path
     final_gathered_vcf_path : string)
    (rf_result_ht_path fam_stats_ht_path : option string)
    (freq_ht_path work_bucket analysis_bucket : string)
    (overwrite : bool) (vqsr_vcf_job rf_anno_job : nat)
    (output_ht_path : string) : Build VqsrEvalFrame :=
  (let job_name := "AS-VQSR: load_vqsr" in
   let vqsr_filters_split_ht_path := join work_bucket "vqsr-filters-split.ht" in
   load_vqsr_job <-
     (if overwrite || negb (file_exists env vqsr_filters_split_ht_path)
      then
        load_vqsr_job <- add_job dataproc_cluster
          (load_vqsr_cmd env vqsr_filters_split_ht_path final_gathered_vcf_path
             work_bucket)
          job_name ;;
        Job_depends_on load_vqsr_job [vqsr_vcf_job] ;;;
        ret load_vqsr_job
      else new_job (job_name +:+ " [reuse]")) ;;
   let job_name := "AS-VQSR: evaluation" in
   let score_bin_ht_path := join work_bucket "vqsr-score-bin.ht" in
   let score_bin_agg_ht_path := join work_bucket "vqsr-score-agg-bin.ht" in
   eval_job <-
     (if overwrite
         || negb (file_exists env score_bin_ht_path)
         || negb (file_exists env score_bin_agg_ht_path)
      then
        eval_job <- add_job dataproc_cluster
          (vqsr_evaluation_cmd env combined_mt_path rf_annotations_ht_path
             info_split_ht_path fam_stats_ht_path rf_result_ht_path
             vqsr_filters_split_ht_path work_bucket score_bin_ht_path
             score_bin_agg_ht_path)
          job_name ;;
        Job_depends_on eval_job [load_vqsr_job; rf_anno_job] ;;;
        ret eval_job
      else new_job (job_name +:+ " [reuse]")) ;;
   let job_name := "AS-VQSR: final filter" in
   let vqsr_model_id := "vqsr_model" in
   final_filter_job <-
     (if negb (file_exists env output_ht_path)
      then
        final_filter_job <- add_job dataproc_cluster
          (vqsr_final_filter_cmd env output_ht_path vqsr_filters_split_ht_path
             vqsr_model_id info_split_ht_path freq_ht_path score_bin_ht_path
             score_bin_agg_ht_path work_bucket)
          job_name ;;
        Job_depends_on final_filter_job [eval_job] ;;;
        ret final_filter_job
      else new_job (job_name +:+ " [reuse]")) ;;
   ret (mkVqsrEvalFrame load_vqsr_job eval_job final_filter_job))%build.

Definition add_vqsr_eval_jobs (env : Env) (dataproc_cluster : nat)
    (combined_mt_path rf_annotations_ht_path info_split_ht_path
     final_gathered_vcf_path : string)
    (rf_result_ht_path fam_stats_ht_path : option string)
    (freq_ht_path work_bucket analysis_bucket : string)
    (overwrite : bool) (vqsr_vcf_job rf_anno_job : nat)
    (output_ht_path : string) : Build nat :=
  (fr <- add_vqsr_eval_jobs_frame env dataproc_cluster combined_mt_path
           rf_annotations_ht_path info_split_ht_path final_gathered_vcf_path
           rf_result_ht_path fam_stats_ht_path freq_ht_path work_bucket
           analysis_bucket overwrite vqsr_vcf_job rf_anno_job output_ht_path ;;
   ret (vqsr_final_filter_job fr))%build.

(** ** add_variant_qc_jobs (lines 21-285) *)

Record VariantQcArgs := mkVariantQcArgs {
  work_bucket : string;
  web_bucket : string;
  raw_combined_mt_path : string;
  hard_filter_ht_path : string;
  meta_ht_path : string;
  out_filtered_combined_mt_path : string;
  out_filtered_vcf_ptrn_path : string;
  sample_count : Z;
  ped_file : option string;
  overwrite : bool;
  vqsr_params_d : list (string * string);
  scatter_count : Z;
  is_test : bool;
  project_name : string;
  depends_on : option (list nat);
  run_rf : bool
}.

(** [list(map(str, range(1, 22 + 1))) + ['X', 'Y']] *)
Definition chromosomes : list string := map pretty (seq 1 22) ++ ["X"; "Y"].

(** The job variables of whichever filtering branch was taken. *)
Inductive BranchFrame :=
  | RfBranch (rf_job : nat) (fr : RfEvalFrame)
  | VqsrBranch (vqsr_vcf_job : nat) (fr : VqsrEvalFrame).

(** The local job variables of [add_variant_qc_jobs] at its return. *)
Record VariantQcFrame := mkVariantQcFrame {
  info_job : nat;
  var_qc_anno_job : nat;
  freq_job : nat;
  rf_anno_job : nat;
  branch : BranchFrame;
  cluster : nat;
  eval_job : nat;
  final_filter_ht_path : string;
  final_mt_j : nat;
  final_ht_j : nat;
  export_jobs : list nat
}.

(** The loop of lines 267-284, with [jobs] the list accumulated so far. *)
Fixpoint export_chromosomes (env : Env) (a : VariantQcArgs) (cluster : nat)
    (export_ht_path export_vcf_header_txt : string) (final_ht_j : nat)
    (chroms : list string) (jobs : list nat) : Build (list nat) :=
  match chroms with
  | [] => ret jobs
  | chrom :: chroms =>
      (let job_name := "Making final VCF: HT to VCF for chr" +:+ chrom in
       let vcf_path := format_CHROM env (out_filtered_vcf_ptrn_path a) chrom in
       j <-
         (if negb (can_reuse env (Paths [vcf_path]) (overwrite a))
          then add_job cluster
                 (release_vcf_export_chrom_cmd env export_ht_path
                    export_vcf_header_txt vcf_path (project_name a) chrom)
                 job_name
          else new_job (job_name +:+ " [reuse]")) ;;
       let jobs := jobs ++ [j] in
       Job_depends_on j [final_ht_j] ;;;
       export_chromosomes env a cluster export_ht_path export_vcf_header_txt
         final_ht_j chroms jobs)%build
  end.

Definition add_variant_qc_jobs_frame (env : Env) (a : VariantQcArgs)
    : Build VariantQcFrame :=
  (let rf_bucket := join (work_bucket a) "rf" in
   let vqsr_bucket := join (work_bucket a) "vqsr" in
   cluster1 <- get_cluster "VarQC 1" (scatter_count a) (is_test a) (depends_on a) false ;;
   cluster2 <- get_cluster "VarQC 2" (scatter_count a) (is_test a) (depends_on a) false ;;
   cluster3 <- get_cluster "VarQC 3" (scatter_count a) (is_test a) (depends_on a) true ;;
   let fam_stats_ht_path :=
     if truthy_str (ped_file a)
     then Some (join (work_bucket a) "fam-stats.ht") else None in
   let allele_data_ht_path := join (work_bucket a) "allele-data.ht" in
   let qc_ac_ht_path := join (work_bucket a) "qc-ac.ht" in
   let rf_result_ht_path : option string := None in

   let job_name := "Var QC: generate info" in
   let info_ht_path := join (work_bucket a) "info.ht" in
   let info_split_ht_path := join (work_bucket a) "info-split.ht" in
   info_job <-
     (if existsb (λ fp, negb (can_reuse env (Path fp) (overwrite a)))
           [info_ht_path; info_split_ht_path]
      then add_job cluster1
             (generate_info_cmd env (raw_combined_mt_path a) info_ht_path
                info_split_ht_path)
             job_name
      else new_job (job_name +:+ " [reuse]")) ;;
   (if truthy_list (depends_on a)
    then Job_depends_on info_job (or_nil (depends_on a))
    else ret tt) ;;;

   let job_name := "Var QC: generate annotations" in
   var_qc_anno_job <-
     (if existsb (λ fp, negb (can_reuse env (Path fp) (overwrite a)))
           ([allele_data_ht_path; qc_ac_ht_path]
            ++ (if truthy_str fam_stats_ht_path
                then [fmt_opt fam_stats_ht_path] else []))
      then
        var_qc_anno_job <- add_job cluster2
          (generate_annotations_cmd env (overwrite a) (raw_combined_mt_path a)
             (hard_filter_ht_path a) (meta_ht_path a) allele_data_ht_path
             qc_ac_ht_path fam_stats_ht_path (ped_file a) (work_bucket a)
             (scatter_count a))
          job_name ;;
        (if truthy_list (depends_on a)
         then Job_depends_on var_qc_anno_job (or_nil (depends_on a))
         else ret tt) ;;;
        ret var_qc_anno_job
      else new_job (job_name +:+ " [reuse]")) ;;

   let job_name := "Var QC: generate frequencies" in
   let freq_ht_path := join (work_bucket a) "frequencies.ht" in
   freq_job <-
     (if overwrite a || negb (file_exists env freq_ht_path)
      then
        freq_job <- add_job cluster3
          (generate_freq_cmd env (raw_combined_mt_path a) (hard_filter_ht_path a)
             (meta_ht_path a) freq_ht_path (work_bucket a))
          job_name ;;
        (if truthy_list (depends_on a)
         then Job_depends_on freq_job (or_nil (depends_on a))
         else ret tt) ;;;
        ret freq_job
      else new_job (job_name +:+ " [reuse]")) ;;

   let job_name := "Var QC: create RF annotations" in
   let rf_annotations_ht_path := join (work_bucket a) "rf-annotations.ht" in
   rf_anno_job <-
     (if overwrite a || negb (file_exists env rf_annotations_ht_path)
      then
        rf_anno_job <- add_job cluster3
          (create_rf_annotations_cmd env info_split_ht_path freq_ht_path
             fam_stats_ht_path allele_data_ht_path qc_ac_ht_path (work_bucket a)
             rf_annotations_ht_path (scatter_count a))
          job_name ;;
        Job_depends_on rf_anno_job [freq_job; var_qc_anno_job; info_job] ;;;
        ret rf_anno_job
      else new_job (job_name +:+ " [reuse]")) ;;

   chosen <-
     (if run_rf a
      then
        cluster <- get_cluster "RF" (scatter_count a) (is_test a)
                     (Some [rf_anno_job]) true ;;
        let job_name := "Random forest" in
        let rf_result_ht_path := join (work_bucket a) "rf-result.ht" in
        let rf_model_id := "rf_" +:+ String.substring 0 8 (uuid4 env) in
        rf_job <-
          (if overwrite a || negb (file_exists env rf_result_ht_path)
           then
             rf_job <- add_job cluster
               (random_forest_cmd env rf_annotations_ht_path (work_bucket a)
                  rf_result_ht_path rf_model_id)
               job_name ;;
             Job_depends_on rf_job [rf_anno_job] ;;;
             ret rf_job
           else new_job (job_name +:+ " [reuse]")) ;;
        fr <- add_rf_eval_jobs_frame env cluster (raw_combined_mt_path a)
                info_split_ht_path rf_result_ht_path rf_annotations_ht_path
                fam_stats_ht_path freq_ht_path rf_model_id rf_bucket
                (overwrite a) (Some [rf_job; freq_job; rf_anno_job]) ;;
        ret (RfBranch rf_job fr, cluster,
             rf_final_filter_job fr, rf_final_filter_ht_path fr)
      else
        let vqsred_vcf_path := join vqsr_bucket "output.vcf.gz" in
        vqsr_vcf_job <-
          (if overwrite a || negb (file_exists env vqsred_vcf_path)
           then add_vqsr_jobs (raw_combined_mt_path a) (hard_filter_ht_path a)
                  (meta_ht_path a) (sample_count a) vqsr_bucket
                  (join (web_bucket a) "vqsr") (or_nil (depends_on a))
                  (vqsr_params_d a) (scatter_count a) vqsred_vcf_path
                  (overwrite a)
           else new_job "AS-VQSR [reuse]") ;;
        let final_filter_ht_path := join vqsr_bucket "final-filter.ht" in
        cluster <- get_cluster "VQSR eval" (scatter_count a) (is_test a)
                     (Some [rf_anno_job; vqsr_vcf_job]) true ;;
        fr <- add_vqsr_eval_jobs_frame env cluster (raw_combined_mt_path a)
                rf_annotations_ht_path info_split_ht_path vqsred_vcf_path
                rf_result_ht_path fam_stats_ht_path freq_ht_path vqsr_bucket
                (join (web_bucket a) "vqsr") (overwrite a) vqsr_vcf_job
                rf_anno_job final_filter_ht_path ;;
        let eval_job := vqsr_final_filter_job fr in
        Job_depends_on eval_job [vqsr_vcf_job; rf_anno_job; info_job] ;;;
        ret (VqsrBranch vqsr_vcf_job fr, cluster, eval_job, final_filter_ht_path)) ;;
   let '(br, cluster, eval_job, final_filter_ht_path) := chosen in

   let job_name := "Making final MT" in
   final_mt_j <-
     (if negb (can_reuse env (Path (out_filtered_combined_mt_path a)) (overwrite a))
      then
        final_mt_j <- add_job cluster
          (make_finalised_mt_cmd env (raw_combined_mt_path a)
             final_filter_ht_path freq_ht_path info_split_ht_path
             (out_filtered_combined_mt_path a) (meta_ht_path a))
          job_name ;;
        Job_depends_on final_mt_j [eval_job] ;;;
        ret final_mt_j
      else new_job (job_name +:+ " [reuse]")) ;;

   let job_name := "Making final VCF: prepare HT" in
   let export_ht_path := join (work_bucket a) "export_vcf.ht" in
   let export_vcf_header_txt := join (work_bucket a) "export_vcf_header.txt" in
   final_ht_j <-
     (if negb (can_reuse env (Paths [export_ht_path; export_vcf_header_txt])
                 (overwrite a))
      then add_job cluster
             (release_vcf_prepare_ht_cmd env (out_filtered_combined_mt_path a)
                export_ht_path export_vcf_header_txt)
             job_name
      else new_job (job_name +:+ " [reuse]")) ;;
   Job_depends_on final_ht_j [final_mt_j] ;;;

   jobs <- export_chromosomes env a cluster export_ht_path export_vcf_header_txt
             final_ht_j chromosomes [] ;;
   ret (mkVariantQcFrame info_job var_qc_anno_job freq_job rf_anno_job br
          cluster eval_job final_filter_ht_path final_mt_j final_ht_j jobs))%build.

(** The function as the source returns it: the list of export jobs. *)
Definition add_variant_qc_jobs (env : Env) (a : VariantQcArgs) : Build (list nat) :=
  (fr <- add_variant_qc_jobs_frame env a ;; ret (export_jobs fr))%build.

(** * scripts/final_filter.py *)

Module FinalFilter.

(** How a run ends: [raise ValueError(msg)], [sys.exit(msg)], or falling
    through. *)
Inductive Outcome :=
  | ValueError (msg : string)
  | SysExit (msg : string)
  | Proceed.

(** Cutoff scores are floats; only their presence is inspected here, and
    they are carried as rationals. *)
Definition score : Type := Q.

(** A Hail table, opaque. *)
Definition Table : Type := string.

Definition is_not_None {A : Type} (o : option A) : bool :=
  match o with Some _ => true | None => false end.

Definition is_None {A : Type} (o : option A) : bool := negb (is_not_None o).

Definition snp_exclusive_msg : string :=
  "snp_bin_cutoff and snp_score_cutoff are mutually exclusive, please only supply one SNP filtering cutoff.".

Definition indel_exclusive_msg : string :=
  "indel_bin_cutoff and indel_score_cutoff are mutually exclusive, please only supply one indel filtering cutoff.".

Definition snp_missing_msg : string :=
  "One (and only one) of the parameters snp_bin_cutoff and snp_score_cutoff must be supplied.".

Definition indel_missing_msg : string :=
  "One (and only one) of the parameters indel_bin_cutoff and indel_score_cutoff must be supplied.".

Definition aggregated_missing_msg : string :=
  "If using snp_bin_cutoff or indel_bin_cutoff, both aggregated_bin_ht and bin_id must be supplied".

(** The parameter checks that open [generate_final_filter_ht] (lines
    69-94).  What follows them in the source is Hail table computation. *)
Definition generate_final_filter_ht_checks
    (snp_bin_cutoff indel_bin_cutoff : option Z)
    (snp_score_cutoff indel_score_cutoff : option score)
    (aggregated_bin_ht : option Table) (bin_id : option string) : Outcome :=
  if is_not_None snp_bin_cutoff && is_not_None snp_score_cutoff
  then ValueError snp_exclusive_msg
  else if is_not_None indel_bin_cutoff && is_not_None indel_score_cutoff
  then ValueError indel_exclusive_msg
  else if is_None snp_bin_cutoff && is_None snp_score_cutoff
  then ValueError snp_missing_msg
  else if is_None indel_bin_cutoff && is_None indel_score_cutoff
  then ValueError indel_missing_msg
  else if (is_not_None snp_bin_cutoff || is_not_None indel_bin_cutoff)
          && (is_None aggregated_bin_ht || is_None bin_id)
  then ValueError aggregated_missing_msg
  else Proceed.

(** The module-level cutoffs (lines 232-239). *)
Definition snp_bin_cutoff : option Z := None.

Definition snp_score_cutoff : option score := None.

Definition indel_bin_cutoff : option Z := None.

Definition indel_score_cutoff : option score := None.

(** The namespace [args] that [main] reads; the file never binds it. *)
Record Args := mkArgs {
  model_id : string;
  model_name : string;
  score_name : string;
  vqsr_model_id : option string;
  args_snp_bin_cutoff : option Z;
  args_indel_bin_cutoff : option Z;
  args_snp_score_cutoff : option score;
  args_indel_score_cutoff : option score
}.

(** What [main] would read from outside once the names it uses were found:
    the store, the path of the score-bin tables of a model
    ([get_score_bins(model_id, aggregated).path]), the path of the result
    ([final_filter.path]), and how the Hail part of
    [generate_final_filter_ht] ends once its parameter checks have passed. *)
Record World := mkWorld {
  file_exists : string → bool;
  score_bins_path : string → bool → string;
  final_filter_path : string;
  table_computation : Outcome
}.

(** What [main] does, in order; [BuildFinalFilter] is the call of
    [generate_final_filter_ht]. *)
Inductive Event :=
  | InitHail
  | BuildFinalFilter
  | WriteFinalFilter (path : string).

(** How [main] ends: in the [NameError] of reading a global name that is not
    bound, or as [Outcome] says. *)
Inductive Exit :=
  | NameError (name : string)
  | Ends (o : Outcome).

(** The global names the module has bound when [main] runs: the imports
    (lines 1-17), [logger] (line 20), [generate_final_filter_ht] (line 24),
    the constants of lines 233-241 and [main] (line 305).  No name that
    [main] reads and this list lacks is a Python builtin. *)
Definition module_globals : list string :=
  ["argparse"; "logging"; "sys"; "Optional"; "hl"; "click";
   "telomeres_and_centromeres"; "file_exists"; "add_filters_expr";
   "slack_notifications"; "INBREEDING_COEFF_HARD_CUTOFF";
   "get_validation_callback"; "utils"; "_version"; "logger";
   "generate_final_filter_ht"; "snp_bin_cutoff"; "snp_score_cutoff";
   "indel_bin_cutoff"; "indel_score_cutoff"; "filter_centromere_telomere";
   "main"].

(** The first of the global names read, in the order of the reads, that the
    module does not bind: reading it raises [NameError]. *)
Definition first_unbound (reads : list string) : option string :=
  head (filter (λ name, bool_decide (name ∉ module_globals)) reads).

Definition missing_bins_msg (model_id aggregated_bin_path : string) : string :=
  "Could not find binned HT for model: " +:+ model_id +:+ " ("
  +:+ aggregated_bin_path
  +:+ "). Please run create_ranked_scores.py for that hash.".

(** [main] (lines 305-392), as the events it performs and how it ends.
    None of [get_score_bins], [args], [get_info], [get_freq],
    [get_vqsr_filters] and [final_filter] is a parameter or a local of
    [main], so each is read as a global; [hl] and
    [telomeres_and_centromeres] are read at line 322 only when the flag of
    line 321 is set, and the module binds both.  Reading and filtering
    tables is lazy in Hail and leaves no event. *)
Definition main (w : World) (args : Args) : list Event * Exit :=
  (* line 318: utils.init_hail *)
  match first_unbound ["utils"] with
  | Some name => ([], NameError name)
  | None =>
      (* lines 320-334: the tables of the model, of the info and of the
         frequencies, and the path of the aggregated bins *)
      match first_unbound ["get_score_bins"; "args"; "hl";
                           "telomeres_and_centromeres"; "get_info"; "get_freq";
                           "file_exists"] with
      | Some name => ([InitHail], NameError name)
      | None =>
          let aggregated_bin_path := score_bins_path w (model_id args) true in
          if negb (file_exists w aggregated_bin_path)
          then
            (* lines 335-337 *)
            ([InitHail],
             match first_unbound ["sys"] with
             | Some name => NameError name
             | None => Ends (SysExit (missing_bins_msg (model_id args)
                                        aggregated_bin_path))
             end)
          else
            let aggregated_bin_ht : Table :=
              score_bins_path w (model_id args) true in
            (* lines 340-357: the callee and its arguments *)
            match first_unbound
                    ("generate_final_filter_ht"
                     :: (if truthy_str (vqsr_model_id args)
                         then ["get_vqsr_filters"] else [])) with
            | Some name => ([InitHail], NameError name)
            | None =>
                match generate_final_filter_ht_checks
                        (args_snp_bin_cutoff args) (args_indel_bin_cutoff args)
                        (args_snp_score_cutoff args)
                        (args_indel_score_cutoff args)
                        (Some aggregated_bin_ht) (Some "bin") with
                | Proceed =>
                    match table_computation w with
                    | Proceed =>
                        (* line 389 *)
                        match first_unbound ["final_filter"] with
                        | Some name =>
                            ([InitHail; BuildFinalFilter], NameError name)
                        | None =>
                            ([InitHail; BuildFinalFilter;
                              WriteFinalFilter (final_filter_path w)],
                             Ends Proceed)
                        end
                    | failure => ([InitHail; BuildFinalFilter], Ends failure)
                    end
                | failure => ([InitHail; BuildFinalFilter], Ends failure)
                end
            end
      end
  end.

End FinalFilter.

(** * The graph as a value

    The nodes the construction appends, written as values.  [n] is the
    number of jobs and [c] the number of clusters the caller's batch already
    holds; the node allocated [k]-th has handle [n + k]. *)

Definition reuse_node (job_name : string) : Job :=
  mkJob (job_name +:+ " [reuse]") Placeholder ∅.

Definition command_node (job_name : string) (cluster : nat) (cmd : string) : Job :=
  mkJob job_name (Command cluster cmd) ∅.

Section EvalNodes.

Variable env : Env.
Variable dataproc_cluster : nat.
Variables combined_mt_path info_split_ht_path rf_annotations_ht_path : string.
Variable fam_stats_ht_path : option string.
Variables freq_ht_path work_bucket : string.
Variable overwrite : bool.

Definition rf_evaluation_node (rf_result_ht_path : string)
    (depends_on : option (list nat)) : Job :=
  if overwrite || negb (file_exists env (join work_bucket "rf-score-bin.ht"))
  then
    let J := command_node "RF: evaluation" dataproc_cluster
               (rf_evaluation_cmd env combined_mt_path rf_annotations_ht_path
                  info_split_ht_path fam_stats_ht_path rf_result_ht_path
                  work_bucket (join work_bucket "rf-score-bin.ht")
                  (join work_bucket "rf-score-agg-bin.ht")) in
    if truthy_list depends_on then add_dependencies (or_nil depends_on) J else J
  else reuse_node "RF: evaluation".

Definition rf_final_filter_node (rf_model_id : string) (eval_job : nat) : Job :=
  if overwrite || negb (file_exists env (join work_bucket "final-filter.ht"))
  then add_dependencies [eval_job]
         (command_node "RF: final filter" dataproc_cluster
            (rf_final_filter_cmd env (join work_bucket "final-filter.ht")
               rf_model_id info_split_ht_path freq_ht_path
               (join work_bucket "rf-score-bin.ht")
               (join work_bucket "rf-score-agg-bin.ht") work_bucket))
  else reuse_node "RF: final filter".

Definition load_vqsr_node (final_gathered_vcf_path : string)
    (vqsr_vcf_job : nat) : Job :=
  if overwrite || negb (file_exists env (join work_bucket "vqsr-filters-split.ht"))
  then add_dependencies [vqsr_vcf_job]
         (command_node "AS-VQSR: load_vqsr" dataproc_cluster
            (load_vqsr_cmd env (join work_bucket "vqsr-filters-split.ht")
               final_gathered_vcf_path work_bucket))
  else reuse_node "AS-VQSR: load_vqsr".

Definition vqsr_evaluation_node (rf_result_ht_path : option string)
    (load_vqsr_job rf_anno_job : nat) : Job :=
  if overwrite
     || negb (file_exists env (join work_bucket "vqsr-score-bin.ht"))
     || negb (file_exists env (join work_bucket "vqsr-score-agg-bin.ht"))
  then add_dependencies [load_vqsr_job; rf_anno_job]
         (command_node "AS-VQSR: evaluation" dataproc_cluster
            (vqsr_evaluation_cmd env combined_mt_path rf_annotations_ht_path
               info_split_ht_path fam_stats_ht_path rf_result_ht_path
               (join work_bucket "vqsr-filters-split.ht") work_bucket
               (join work_bucket "vqsr-score-bin.ht")
               (join work_bucket "vqsr-score-agg-bin.ht")))
  else reuse_node "AS-VQSR: evaluation".

(** The overwrite flag plays no part in this node (line 420). *)
Definition vqsr_final_filter_node (output_ht_path : string) (eval_job : nat) : Job :=
  if negb (file_exists env output_ht_path)
  then add_dependencies [eval_job]
         (command_node "AS-VQSR: final filter" dataproc_cluster
            (vqsr_final_filter_cmd env output_ht_path
               (join work_bucket "vqsr-filters-split.ht") "vqsr_model"
               info_split_ht_path freq_ht_path
               (join work_bucket "vqsr-score-bin.ht")
               (join work_bucket "vqsr-score-agg-bin.ht") work_bucket))
  else reuse_node "AS-VQSR: final filter".

End EvalNodes.

Section GraphNodes.

Variable env : Env.
Variable a : VariantQcArgs.

Definition rf_bucket := join (work_bucket a) "rf".

Definition vqsr_bucket := join (work_bucket a) "vqsr".

Definition fam_stats_ht_path : option string :=
  if truthy_str (ped_file a) then Some (join (work_bucket a) "fam-stats.ht") else None.

Definition allele_data_ht_path := join (work_bucket a) "allele-data.ht".

Definition qc_ac_ht_path := join (work_bucket a) "qc-ac.ht".

Definition info_ht_path := join (work_bucket a) "info.ht".

Definition info_split_ht_path := join (work_bucket a) "info-split.ht".

Definition freq_ht_path := join (work_bucket a) "frequencies.ht".

Definition rf_annotations_ht_path := join (work_bucket a) "rf-annotations.ht".

Definition rf_result_ht_path := join (work_bucket a) "rf-result.ht".

Definition rf_model_id := "rf_" +:+ String.substring 0 8 (uuid4 env).

Definition vqsred_vcf_path := join vqsr_bucket "output.vcf.gz".

Definition export_ht_path := join (work_bucket a) "export_vcf.ht".

Definition export_vcf_header_txt := join (work_bucket a) "export_vcf_header.txt".

Definition vcf_path (chrom : string) :=
  format_CHROM env (out_filtered_vcf_ptrn_path a) chrom.

(** The optional run-level dependencies, attached when truthy. *)
Definition gated (J : Job) : Job :=
  if truthy_list (depends_on a) then add_dependencies (or_nil (depends_on a)) J else J.

Definition info_node (cluster1 : nat) : Job :=
  gated
    (if existsb (λ fp, negb (can_reuse env (Path fp) (overwrite a)))
          [info_ht_path; info_split_ht_path]
     then command_node "Var QC: generate info" cluster1
            (generate_info_cmd env (raw_combined_mt_path a) info_ht_path
               info_split_ht_path)
     else reuse_node "Var QC: generate info").

Definition annotations_node (cluster2 : nat) : Job :=
  if existsb (λ fp, negb (can_reuse env (Path fp) (overwrite a)))
       ([allele_data_ht_path; qc_ac_ht_path]
        ++ (if truthy_str fam_stats_ht_path then [fmt_opt fam_stats_ht_path] else []))
  then gated
         (command_node "Var QC: generate annotations" cluster2
            (generate_annotations_cmd env (overwrite a) (raw_combined_mt_path a)
               (hard_filter_ht_path a) (meta_ht_path a) allele_data_ht_path
               qc_ac_ht_path fam_stats_ht_path (ped_file a) (work_bucket a)
               (scatter_count a)))
  else reuse_node "Var QC: generate annotations".

Definition frequencies_node (cluster3 : nat) : Job :=
  if overwrite a || negb (file_exists env freq_ht_path)
  then gated
         (command_node "Var QC: generate frequencies" cluster3
            (generate_freq_cmd env (raw_combined_mt_path a) (hard_filter_ht_path a)
               (meta_ht_path a) freq_ht_path (work_bucket a)))
  else reuse_node "Var QC: generate frequencies".

Definition rf_annotations_node (cluster3 freq_job var_qc_anno_job info_job : nat) : Job :=
  if overwrite a || negb (file_exists env rf_annotations_ht_path)
  then add_dependencies [freq_job; var_qc_anno_job; info_job]
         (command_node "Var QC: create RF annotations" cluster3
            (create_rf_annotations_cmd env info_split_ht_path freq_ht_path
               fam_stats_ht_path allele_data_ht_path qc_ac_ht_path (work_bucket a)
               rf_annotations_ht_path (scatter_count a)))
  else reuse_node "Var QC: create RF annotations".

Definition random_forest_node (cluster rf_anno_job : nat) : Job :=
  if overwrite a || negb (file_exists env rf_result_ht_path)
  then add_dependencies [rf_anno_job]
         (command_node "Random forest" cluster
            (random_forest_cmd env rf_annotations_ht_path (work_bucket a)
               rf_result_ht_path rf_model_id))
  else reuse_node "Random forest".

Definition vqsr_pipeline_node : Job :=
  if overwrite a || negb (file_exists env vqsred_vcf_path)
  then mkJob "AS-VQSR" (SubPipeline vqsred_vcf_path)
         (list_to_set (or_nil (depends_on a)))
  else mkJob "AS-VQSR [reuse]" Placeholder ∅.

Definition final_mt_node (cluster eval_job : nat) (final_filter_ht_path : string) : Job :=
  if negb (can_reuse env (Path (out_filtered_combined_mt_path a)) (overwrite a))
  then add_dependencies [eval_job]
         (command_node "Making final MT" cluster
            (make_finalised_mt_cmd env (raw_combined_mt_path a) final_filter_ht_path
               freq_ht_path info_split_ht_path (out_filtered_combined_mt_path a)
               (meta_ht_path a)))
  else reuse_node "Making final MT".

Definition export_prepare_node (cluster final_mt_j : nat) : Job :=
  add_dependencies [final_mt_j]
    (if negb (can_reuse env (Paths [export_ht_path; export_vcf_header_txt])
                (overwrite a))
     then command_node "Making final VCF: prepare HT" cluster
            (release_vcf_prepare_ht_cmd env (out_filtered_combined_mt_path a)
               export_ht_path export_vcf_header_txt)
     else reuse_node "Making final VCF: prepare HT").

Definition export_node (cluster final_ht_j : nat) (chrom : string) : Job :=
  add_dependencies [final_ht_j]
    (if negb (can_reuse env (Paths [vcf_path chrom]) (overwrite a))
     then command_node ("Making final VCF: HT to VCF for chr" +:+ chrom) cluster
            (release_vcf_export_chrom_cmd env export_ht_path export_vcf_header_txt
               (vcf_path chrom) (project_name a) chrom)
     else reuse_node ("Making final VCF: HT to VCF for chr" +:+ chrom)).

End GraphNodes.

Section Graph.

Variable env : Env.
Variable a : VariantQcArgs.
(** Jobs and clusters already in the caller's batch. *)
Variables n c : nat.

Definition common_nodes : list Job :=
  [info_node env a (c + 0);
   annotations_node env a (c + 1);
   frequencies_node env a (c + 2);
   rf_annotations_node env a (c + 2) (n + 2) (n + 1) (n + 0)].

Definition rf_branch_nodes : list Job :=
  [random_forest_node env a (c + 3) (n + 3);
   rf_evaluation_node env (c + 3) (raw_combined_mt_path a) (info_split_ht_path a)
     (rf_annotations_ht_path a) (fam_stats_ht_path a) (rf_bucket a) (overwrite a)
     (rf_result_ht_path a) (Some [n + 4; n + 2; n + 3]);
   rf_final_filter_node env (c + 3) (info_split_ht_path a) (freq_ht_path a)
     (rf_bucket a) (overwrite a) (rf_model_id env) (n + 5)].

Definition vqsr_branch_nodes : list Job :=
  [vqsr_pipeline_node env a;
   load_vqsr_node env (c + 3) (vqsr_bucket a) (overwrite a) (vqsred_vcf_path a) (n + 4);
   vqsr_evaluation_node env (c + 3) (raw_combined_mt_path a) (info_split_ht_path a)
     (rf_annotations_ht_path a) (fam_stats_ht_path a) (vqsr_bucket a) (overwrite a)
     None (n + 5) (n + 3);
   add_dependencies [n + 4; n + 3; n + 0]
     (vqsr_final_filter_node env (c + 3) (info_split_ht_path a) (freq_ht_path a)
        (vqsr_bucket a) (join (vqsr_bucket a) "final-filter.ht") (n + 6))].

(** The tail shared by both branches, given the handles of the branch's
    last job and of the two jobs allocated next, and the final-filter table
    of the branch taken. *)
Definition export_tail_nodes (eval_job final_mt_j final_ht_j : nat)
    (ffp : string) : list Job :=
  [final_mt_node env a (c + 3) eval_job ffp;
   export_prepare_node env a (c + 3) final_mt_j]
  ++ map (export_node env a (c + 3) final_ht_j) chromosomes.

Definition variant_qc_nodes : list Job :=
  if run_rf a
  then common_nodes ++ rf_branch_nodes
       ++ export_tail_nodes (n + 6) (n + 7) (n + 8)
            (join (rf_bucket a) "final-filter.ht")
  else common_nodes ++ vqsr_branch_nodes
       ++ export_tail_nodes (n + 7) (n + 8) (n + 9)
            (join (vqsr_bucket a) "final-filter.ht").

Definition variant_qc_clusters : list Cluster :=
  [mkCluster "VarQC 1" (scatter_count a) (is_test a) false (or_nil (depends_on a));
   mkCluster "VarQC 2" (scatter_count a) (is_test a) false (or_nil (depends_on a));
   mkCluster "VarQC 3" (scatter_count a) (is_test a) true (or_nil (depends_on a));
   if run_rf a
   then mkCluster "RF" (scatter_count a) (is_test a) true [n + 3]
   else mkCluster "VQSR eval" (scatter_count a) (is_test a) true [n + 3; n + 4]].

Definition variant_qc_frame : VariantQcFrame :=
  if run_rf a
  then mkVariantQcFrame (n + 0) (n + 1) (n + 2) (n + 3)
         (RfBranch (n + 4)
            (mkRfEvalFrame (n + 5) (n + 6) (join (rf_bucket a) "final-filter.ht")))
         (c + 3) (n + 6) (join (rf_bucket a) "final-filter.ht")
         (n + 7) (n + 8) (seq (n + 9) (length chromosomes))
  else mkVariantQcFrame (n + 0) (n + 1) (n + 2) (n + 3)
         (VqsrBranch (n + 4) (mkVqsrEvalFrame (n + 5) (n + 6) (n + 7)))
         (c + 3) (n + 7) (join (vqsr_bucket a) "final-filter.ht")
         (n + 8) (n + 9) (seq (n + 10) (length chromosomes)).

End Graph.

(** The jobs appended to [b] on the way to [b']. *)
Definition new_jobs (b b' : Batch) : list Job := drop (length (jobs b)) (jobs b').

(** Names of stages. *)
Definition is_export_stage (J : Job) : bool :=
  String.prefix "Making final VCF: HT to VCF for chr" (job_name J).

Definition is_export_prepare_stage (J : Job) : bool :=
  String.eqb (job_name J) "Making final VCF: prepare HT"
  || String.eqb (job_name J) "Making final VCF: prepare HT [reuse]".

Inductive Stage :=
  | StInfo
  | StAnnotations
  | StFrequencies
  | StRfAnnotations
  | StRandomForest
  | StRfEvaluation
  | StRfFinalFilter
  | StVqsrPipeline
  | StLoadVqsr
  | StVqsrEvaluation
  | StVqsrFinalFilter
  | StFinalMt
  | StExportPrepare
  (** the export stage of the [i]-th chromosome *)
  | StExport (i : nat).

(** The job variable that holds a stage when the construction returns. *)
Definition stage_handle (fr : VariantQcFrame) (s : Stage) : option nat :=
  match s with
  | StInfo => Some (info_job fr)
  | StAnnotations => Some (var_qc_anno_job fr)
  | StFrequencies => Some (freq_job fr)
  | StRfAnnotations => Some (rf_anno_job fr)
  | StRandomForest =>
      match branch fr with RfBranch rf_job _ => Some rf_job | _ => None end
  | StRfEvaluation =>
      match branch fr with RfBranch _ ev => Some (rf_eval_job ev) | _ => None end
  | StRfFinalFilter =>
      match branch fr with RfBranch _ ev => Some (rf_final_filter_job ev) | _ => None end
  | StVqsrPipeline =>
      match branch fr with VqsrBranch vqsr_vcf_job _ => Some vqsr_vcf_job | _ => None end
  | StLoadVqsr =>
      match branch fr with VqsrBranch _ ev => Some (load_vqsr_job ev) | _ => None end
  | StVqsrEvaluation =>
      match branch fr with VqsrBranch _ ev => Some (vqsr_eval_job ev) | _ => None end
  | StVqsrFinalFilter =>
      match branch fr with VqsrBranch _ ev => Some (vqsr_final_filter_job ev) | _ => None end
  | StFinalMt => Some (final_mt_j fr)
  | StExportPrepare => Some (final_ht_j fr)
  | StExport i => export_jobs fr !! i
  end.

(** The job a stage's handle points to in a batch. *)
Definition stage_job (fr : VariantQcFrame) (b : Batch) (s : Stage) : option Job :=
  h ← stage_handle fr s; jobs b !! h.

(** The node of each stage, as a value. *)
Definition stage_node (env : Env) (a : VariantQcArgs) (n c : nat) (s : Stage)
    : option Job :=
  let rf := run_rf a in
  let ev := if rf then n + 6 else n + 7 in
  let fm := if rf then n + 7 else n + 8 in
  let fh := if rf then n + 8 else n + 9 in
  let ffp := join (if rf then rf_bucket a else vqsr_bucket a) "final-filter.ht" in
  match s with
  | StInfo => Some (info_node env a (c + 0))
  | StAnnotations => Some (annotations_node env a (c + 1))
  | StFrequencies => Some (frequencies_node env a (c + 2))
  | StRfAnnotations => Some (rf_annotations_node env a (c + 2) (n + 2) (n + 1) (n + 0))
  | StRandomForest =>
      if rf then Some (random_forest_node env a (c + 3) (n + 3)) else None
  | StRfEvaluation =>
      if rf
      then Some (rf_evaluation_node env (c + 3) (raw_combined_mt_path a)
                   (info_split_ht_path a) (rf_annotations_ht_path a)
                   (fam_stats_ht_path a) (rf_bucket a) (overwrite a)
                   (rf_result_ht_path a) (Some [n + 4; n + 2; n + 3]))
      else None
  | StRfFinalFilter =>
      if rf
      then Some (rf_final_filter_node env (c + 3) (info_split_ht_path a)
                   (freq_ht_path a) (rf_bucket a) (overwrite a) (rf_model_id env)
                   (n + 5))
      else None
  | StVqsrPipeline => if rf then None else Some (vqsr_pipeline_node env a)
  | StLoadVqsr =>
      if rf then None
      else Some (load_vqsr_node env (c + 3) (vqsr_bucket a) (overwrite a)
                   (vqsred_vcf_path a) (n + 4))
  | StVqsrEvaluation =>
      if rf then None
      else Some (vqsr_evaluation_node env (c + 3) (raw_combined_mt_path a)
                   (info_split_ht_path a) (rf_annotations_ht_path a)
                   (fam_stats_ht_path a) (vqsr_bucket a) (overwrite a) None
                   (n + 5) (n + 3))
  | StVqsrFinalFilter =>
      if rf then None
      else Some (add_dependencies [n + 4; n + 3; n + 0]
                   (vqsr_final_filter_node env (c + 3) (info_split_ht_path a)
                      (freq_ht_path a) (vqsr_bucket a)
                      (join (vqsr_bucket a) "final-filter.ht") (n + 6)))
  | StFinalMt => Some (final_mt_node env a (c + 3) ev ffp)
  | StExportPrepare => Some (export_prepare_node env a (c + 3) fm)
  | StExport i => export_node env a (c + 3) fh <$> chromosomes !! i
  end.

Definition chain_nodes (env : Env) (a : VariantQcArgs) (n c : nat) : list Job :=
  if run_rf a
  then common_nodes env a n c ++ rf_branch_nodes env a n c
       ++ [final_mt_node env a (c + 3) (n + 6) (join (rf_bucket a) "final-filter.ht");
           export_prepare_node env a (c + 3) (n + 7)]
  else common_nodes env a n c ++ vqsr_branch_nodes env a n c
       ++ [final_mt_node env a (c + 3) (n + 7) (join (vqsr_bucket a) "final-filter.ht");
           export_prepare_node env a (c + 3) (n + 8)].

Definition chain_length (a : VariantQcArgs) : nat := if run_rf a then 9 else 10.

(** Stages of the recalibration branch are named [AS-VQSR...]; stages of the
    random-forest branch are named [Random forest...] or [RF: ...]. *)
Definition is_recalibration_stage (J : Job) : bool :=
  String.prefix "AS-VQSR" (job_name J).

Definition is_random_forest_stage (J : Job) : bool :=
  String.prefix "Random forest" (job_name J) || String.prefix "RF: " (job_name J).

(** The artifact paths the reuse check of each stage lists. *)
Definition stage_targets (env : Env) (a : VariantQcArgs) (s : Stage) : list string :=
  match s with
  | StInfo => [info_ht_path a; info_split_ht_path a]
  | StAnnotations =>
      [allele_data_ht_path a; qc_ac_ht_path a]
      ++ (if truthy_str (fam_stats_ht_path a) then [fmt_opt (fam_stats_ht_path a)] else [])
  | StFrequencies => [freq_ht_path a]
  | StRfAnnotations => [rf_annotations_ht_path a]
  | StRandomForest => [rf_result_ht_path a]
  | StRfEvaluation => [join (rf_bucket a) "rf-score-bin.ht"]
  | StRfFinalFilter => [join (rf_bucket a) "final-filter.ht"]
  | StVqsrPipeline => [vqsred_vcf_path a]
  | StLoadVqsr => [join (vqsr_bucket a) "vqsr-filters-split.ht"]
  | StVqsrEvaluation =>
      [join (vqsr_bucket a) "vqsr-score-bin.ht";
       join (vqsr_bucket a) "vqsr-score-agg-bin.ht"]
  | StVqsrFinalFilter => [join (vqsr_bucket a) "final-filter.ht"]
  | StFinalMt => [out_filtered_combined_mt_path a]
  | StExportPrepare => [export_ht_path a; export_vcf_header_txt a]
  | StExport i =>
      match chromosomes !! i with
      | Some chrom => [vcf_path env a chrom]
      | None => []
      end
  end.

(** The stages of the chain, in allocation order. *)
Definition chain_stages (a : VariantQcArgs) : list Stage :=
  if run_rf a
  then [StInfo; StAnnotations; StFrequencies; StRfAnnotations; StRandomForest;
        StRfEvaluation; StRfFinalFilter; StFinalMt; StExportPrepare]
  else [StInfo; StAnnotations; StFrequencies; StRfAnnotations; StVqsrPipeline;
        StLoadVqsr; StVqsrEvaluation; StVqsrFinalFilter; StFinalMt; StExportPrepare].

(** Example inputs: a store, an upstream job, and run-level parameters. *)
Definition example_format (ptrn chrom : string) : string := ptrn +:+ chrom.

Definition example_env (store : string → bool) : Env :=
  mkEnv store "123e4567-e89b-42d3-a456-426614174000" "scripts" example_format.

Definition example_args (overwrite run_rf : bool) : VariantQcArgs :=
  mkVariantQcArgs "gs://w" "gs://web" "raw.mt" "hf.ht" "meta.ht" "out.mt"
    "out.chr" 10 None overwrite [] 50 false "proj" (Some [0]) run_rf.

Definition example_batch : Batch := mkBatch [mkJob "upstream" Placeholder ∅] [].

(** The edges the construction attaches to a stage after its if/else, and so
    also to its placeholder. *)
Definition reused_edges (fr : VariantQcFrame) (a : VariantQcArgs) (s : Stage)
    : gset nat :=
  match s with
  | StInfo =>
      if truthy_list (depends_on a) then list_to_set (or_nil (depends_on a)) else ∅
  | StVqsrFinalFilter =>
      match branch fr with
      | VqsrBranch vqsr_vcf_job _ =>
          list_to_set [vqsr_vcf_job; rf_anno_job fr; info_job fr]
      | _ => ∅
      end
  | StExportPrepare => {[final_mt_j fr]}
  | StExport _ => {[final_ht_j fr]}
  | _ => ∅
  end.

(** The command line a stage was registered with, if any. *)
Definition stage_command (fr : VariantQcFrame) (b : Batch) (s : Stage)
    : option string :=
  J ← stage_job fr b s; job_command J.

Inductive VariantClass := SNV | Indel.

Definition exclusive_msg (c : VariantClass) : string :=
  match c with SNV => FinalFilter.snp_exclusive_msg | Indel => FinalFilter.indel_exclusive_msg end.

Definition missing_msg (c : VariantClass) : string :=
  match c with SNV => FinalFilter.snp_missing_msg | Indel => FinalFilter.indel_missing_msg end.

Definition example_world : FinalFilter.World :=
  FinalFilter.mkWorld (λ p, String.eqb p "gs://w/rf/rf-score-bin.ht")
    (λ model_id aggregated,
       "gs://w/" +:+ model_id +:+ (if aggregated then "/agg-bin.ht" else "/bin.ht"))
    "gs://w/rf/final-filter.ht" FinalFilter.Proceed.

Definition example_script_args : FinalFilter.Args :=
  FinalFilter.mkArgs "rf_123e4567" "RF" "RF" (Some "vqsr_alleleSpecificTrans")
    FinalFilter.snp_bin_cutoff
    FinalFilter.indel_bin_cutoff FinalFilter.snp_score_cutoff
    FinalFilter.indel_score_cutoff.

(** * Python strings and exceptions *)

(** [s.split(sep)] for a non-empty separator: the pieces between the
    occurrences of [sep], found left to right without overlap.  [skip]
    counts the characters of a matched separator still to be passed over,
    [cur] is the piece being read. *)
Fixpoint str_split_from (sep : string) (skip : nat) (cur s : string) : list string :=
  match s with
  | "" => [cur]
  | String ch s' =>
      match skip with
      | S k => str_split_from sep k cur s'
      | 0 =>
          if String.prefix sep s
          then cur :: str_split_from sep (String.length sep - 1) "" s'
          else str_split_from sep 0 (cur +:+ String ch "") s'
      end
  end.

Definition str_split (sep s : string) : list string := str_split_from sep 0 "" s.

(** [s.replace(old, new)] for a non-empty [old]. *)
Fixpoint str_replace_from (old new : string) (skip : nat) (s : string) : string :=
  match s with
  | "" => ""
  | String ch s' =>
      match skip with
      | S k => str_replace_from old new k s'
      | 0 =>
          if String.prefix old s
          then new +:+ str_replace_from old new (String.length old - 1) s'
          else String ch (str_replace_from old new 0 s')
      end
  end.

Definition str_replace (old new s : string) : string := str_replace_from old new 0 s.

(** [sep.join(parts)]. *)
Fixpoint str_join (sep : string) (parts : list string) : string :=
  match parts with
  | [] => ""
  | [p] => p
  | p :: ps => p +:+ sep +:+ str_join sep ps
  end.

(** [ch in s] for a character [ch]. *)
Fixpoint contains_char (ch : ascii) (s : string) : bool :=
  match s with
  | "" => false
  | String c s' => Ascii.eqb c ch || contains_char ch s'
  end.

(** [s.endswith(suffix)]. *)
Definition str_endswith (s suffix : string) : bool :=
  (String.length suffix <=? String.length s)%nat
  && String.eqb
       (String.substring (String.length s - String.length suffix)
          (String.length suffix) s)
       suffix.

Inductive Raised :=
  | ValueError (msg : string)
  | TypeError (msg : string)
  | AttributeError (msg : string)
  | UnboundLocalError (name : string)
  | AssertionError
  (** an error raised inside a library call *)
  | LibraryError (what : string).

(** How a call ends. *)
Inductive Result (A : Type) :=
  | Raise (e : Raised)
  | Return (a : A).

Arguments Raise {A} e.
Arguments Return {A} a.

#[global] Instance Result_bind : MBind Result :=
  λ A B f m, match m with Raise e => Raise e | Return a => f a end.

(** * scripts/release_vcf_prepare_ht.py *)

Module ReleaseVcf.

(** A Hail expression that reads the table. *)
Inductive Expr :=
  (** [t[array][i].attr] *)
  | ArrayItem (array : string) (i : Z) (attr : string)
  (** [t[field].attr] *)
  | RowField (field attr : string)
  (** [hl.delimit(t.field.attr, delimiter='|')] *)
  | Delimited (field attr : string).

(** What the functions read from the table [t]: the index dictionaries among
    its globals ([hl.eval(t.globals[name])], as the items of the dict in
    iteration order), and whether the age histograms are among its fields
    (reading a missing one raises the [AttributeError] caught at line 623). *)
Record VariantTable := mkTable {
  index_dict : string → list (string * Z);
  has_age_hists : bool
}.

(** [d.update(items)], on the fields of a struct expression. *)
Definition dict_update (d : gmap string Expr) (items : list (string * Expr))
    : gmap string Expr :=
  foldl (λ d kv, <[kv.1 := kv.2]> d) d items.

Definition mode_msg : string :=
  "One and only one of full_release, subset_release, or full_for_subset must be set to True".

Definition not_iterable_msg : string :=
  "argument of type 'NoneType' is not iterable".

Section Unfurl.

(** [joint_calling.resources.COHORT]. *)
Variable COHORT : string.

(** The [combo_dict] of one entry of the frequency index (lines 570-575). *)
Definition freq_combo_dict (prefix freq : string) (combo : string) (i : Z)
    : list (string * Expr) :=
  [(prefix +:+ "AC-" +:+ combo, ArrayItem freq i "AC");
   (prefix +:+ "AN-" +:+ combo, ArrayItem freq i "AN");
   (prefix +:+ "AF-" +:+ combo, ArrayItem freq i "AF");
   (prefix +:+ "nhomalt-" +:+ combo, ArrayItem freq i "homozygote_count")].

(** The loop over [freq_idx.items()] (lines 566-579). *)
Fixpoint unfurl_freq (prefix freq : string) (entries_to_remove : option (gset string))
    (items : list (string * Z)) (expr_dict : gmap string Expr)
    (freq_entries_to_remove_vcf : gset string)
    : Result (gmap string Expr * gset string) :=
  match items with
  | [] => Return (expr_dict, freq_entries_to_remove_vcf)
  | (k, i) :: items =>
      let combo_dict := freq_combo_dict prefix freq k i in
      let expr_dict := dict_update expr_dict combo_dict in
      match entries_to_remove with
      | None => Raise (TypeError not_iterable_msg)
      | Some entries =>
          unfurl_freq prefix freq entries_to_remove items expr_dict
            (if bool_decide (default "" (head (str_split "-" k)) ∈ entries)
             then freq_entries_to_remove_vcf ∪ list_to_set (map fst combo_dict)
             else freq_entries_to_remove_vcf)
      end
  end.

(** The [combo_dict] of the popmax annotations (lines 584-591). *)
Definition popmax_combo_dict (prefix popmax : string) : list (string * Expr) :=
  [(prefix +:+ "popmax", RowField popmax "pop");
   (prefix +:+ "AC-popmax", RowField popmax "AC");
   (prefix +:+ "AN-popmax", RowField popmax "AN");
   (prefix +:+ "AF-popmax", RowField popmax "AF");
   (prefix +:+ "nhomalt-popmax", RowField popmax "homozygote_count");
   (prefix +:+ "faf95-popmax", RowField popmax "faf95")].

(** The loop over [faf_idx.items()] (lines 598-603). *)
Definition unfurl_faf (prefix faf : string) (items : list (string * Z))
    (expr_dict : gmap string Expr) : gmap string Expr :=
  foldl (λ d ki,
           dict_update d
             [(prefix +:+ "faf95-" +:+ ki.1, ArrayItem faf ki.2 "faf95");
              (prefix +:+ "faf99-" +:+ ki.1, ArrayItem faf ki.2 "faf99")])
    expr_dict items.

Definition age_hist_dict : list (string * Expr) :=
  [("age_hist_het_bin_freq", Delimited "age_hist_het" "bin_freq");
   ("age_hist_het_bin_edges", Delimited "age_hist_het" "bin_edges");
   ("age_hist_het_n_smaller", RowField "age_hist_het" "n_smaller");
   ("age_hist_het_n_larger", RowField "age_hist_het" "n_larger");
   ("age_hist_hom_bin_freq", Delimited "age_hist_hom" "bin_freq");
   ("age_hist_hom_bin_edges", Delimited "age_hist_hom" "bin_edges");
   ("age_hist_hom_n_smaller", RowField "age_hist_hom" "n_smaller");
   ("age_hist_hom_n_larger", RowField "age_hist_hom" "n_larger")].

(** [unfurl_nested_annotations] (lines 480-628): the fields of the returned
    struct and the set of frequency entries to remove. *)
Definition unfurl_nested_annotations (t : VariantTable)
    (full_release subset_release full_for_subset : bool)
    (entries_to_remove : option (gset string))
    : Result (gmap string Expr * gset string) :=
  if negb (Nat.b2n full_release + Nat.b2n subset_release + Nat.b2n full_for_subset
           =? 1)%nat
  then Raise (ValueError mode_msg)
  else
    let prefix := if full_for_subset then COHORT +:+ "_" else "" in
    let popmax := if subset_release then None else Some (prefix +:+ "popmax") in
    let faf := if subset_release then None else Some (prefix +:+ "faf") in
    let freq := if subset_release then "hgdp_tgp_freq" else prefix +:+ "freq" in
    let freq_idx :=
      if subset_release then index_dict t "hgdp_tgp_freq_index_dict"
      else index_dict t (prefix +:+ "freq_index_dict") in
    let faf_idx :=
      if subset_release then None
      else Some (index_dict t (prefix +:+ "faf_index_dict")) in
    let prefix := if full_for_subset then COHORT +:+ "-" else prefix in
    match unfurl_freq prefix freq entries_to_remove freq_idx ∅ ∅ with
    | Raise e => Raise e
    | Return (expr_dict, freq_entries_to_remove_vcf) =>
        let with_popmax :=
          if full_release || full_for_subset
          then match popmax, faf_idx, faf with
               | Some popmax, Some faf_idx, Some faf =>
                   Return (unfurl_faf prefix faf faf_idx
                             (dict_update expr_dict (popmax_combo_dict prefix popmax)))
               | _, _, _ => Raise AssertionError
               end
          else Return expr_dict in
        match with_popmax with
        | Raise e => Raise e
        | Return expr_dict =>
            let expr_dict :=
              if full_release && has_age_hists t
              then dict_update expr_dict age_hist_dict
              else expr_dict in
            Return (expr_dict, freq_entries_to_remove_vcf)
        end
    end.

(** What [_prepare_vcf_ht] (lines 666-777) does with the nested frequency
    annotations: the unfurled struct that becomes [info] (lines 682-704),
    and the global [freq_entries_to_remove] (lines 764-773). *)
Definition prepare_vcf_ht (ht : VariantTable) (is_subset : bool)
    (freq_entries_to_remove : option (gset string))
    : Result (gmap string Expr * gset string) :=
  let unfurled :=
    if negb is_subset
    then unfurl_nested_annotations ht true false false freq_entries_to_remove
    else
      match unfurl_nested_annotations ht false true false freq_entries_to_remove with
      | Raise e => Raise e
      | Return (info_struct_subset, freq_entries_to_remove) =>
          match unfurl_nested_annotations ht false false true
                  (Some freq_entries_to_remove) with
          | Raise e => Raise e
          | Return (info_struct_full_for_subset, freq_entries_to_remove) =>
              Return (info_struct_full_for_subset ∪ info_struct_subset,
                      freq_entries_to_remove)
          end
      end in
  match unfurled with
  | Raise e => Raise e
  | Return (info_struct, freq_entries_to_remove) =>
      Return (info_struct,
              if bool_decide (freq_entries_to_remove ≠ ∅)
              then freq_entries_to_remove else ∅)
  end.

End Unfurl.

(** The renaming of the INFO fields in [_cleanup_ht_for_vcf_export]
    (line 867). *)
Definition info_field_name (x : string) : string :=
  str_replace "-" "_" (str_replace "-adj" "" x).

(** The renaming of the INFO header keys in [prepare_vcf_header_dict]
    (line 824). *)
Definition header_info_key (i : string) : string :=
  str_replace "-" "_" (str_replace "_adj" "" i).

End ReleaseVcf.

(** * scripts/generate_qc_annotations.py *)

Module QcAnnotations.

(** What a file of the store holds. *)
Inductive File :=
  (** the info table, computed with or without [split_multiallelic] *)
  | InfoTable (split_multiallelic : bool)
  (** [hl.export_vcf(ht_to_vcf_mt(info_ht), ...)] of a table *)
  | InfoVcf (info_ht : File)
  (** the sites with one transmitted allele at a transmission confidence *)
  | TransmittedSingletons (transmission_confidence : string)
  | OtherFile (what : string).

(** [file_exists], on a store given by the files it holds. *)
Definition file_exists (store : gmap string File) (path : string) : bool :=
  bool_decide (is_Some (store !! path)).

(** [compute_info] (lines 196-306): the store it leaves and the table it
    returns. *)
Definition compute_info (store : gmap string File) (out_ht_path : string)
    (out_vcf_path : option string) (overwrite split_multiallelic : bool)
    : gmap string File * File :=
  let '(store, info_ht) :=
    if negb overwrite && file_exists store out_ht_path
    then (store, default (OtherFile out_ht_path) (store !! out_ht_path))
    else (<[out_ht_path := InfoTable split_multiallelic]> store,
          InfoTable split_multiallelic) in
  if truthy_str out_vcf_path
     && (negb (file_exists store (fmt_opt out_vcf_path)) || overwrite)
  then (<[fmt_opt out_vcf_path := InfoVcf info_ht]> store, info_ht)
  else (store, info_ht).




End QcAnnotations.

(** * scripts/final_filter.py: the body of generate_final_filter_ht *)

Module FilterTable.

(** A cutoff struct among the globals: [hl.struct(bin=..., min_score=...)]
    or [hl.struct(min_score=...)]; [cutoff_bin] is [None] for a struct
    without a [bin] field. *)
Record Cutoff := mkCutoff {
  cutoff_bin : option Z;
  cutoff_min_score : option FinalFilter.score
}.

(** The global [filtering_model] of the returned table (lines 207-212). *)
Record FilteringModel := mkFilteringModel {
  fm_model_name : string;
  fm_score_name : string;
  snv_cutoff : Cutoff;
  indel_cutoff : Cutoff
}.

(** How the Hail calls of the function end on the tables it is given. *)
Record Tables := mkTables {
  (** lines 98-105 and 109-116: the minimum score of a bin of the
      aggregated table, for SNVs ([true]) or indels; [None] when no row
      matches *)
  bin_min_score : bool → Z → Result (option FinalFilter.score);
  (** lines 121-122 *)
  min_score : Result (option FinalFilter.score);
  max_score : Result (option FinalFilter.score);
  (** line 141 *)
  any_missing_score : Result bool;
  (** lines 145-160, once both cutoff structs are bound *)
  filter_exprs : Result unit;
  (** lines 167-168, the fields read for the RF annotations *)
  rf_fields : Result unit;
  (** lines 171-227 *)
  rest : Result unit
}.

(** Truthiness of an [Optional[int]] and of an [Optional[float]]. *)
Definition truthy_int (o : option Z) : bool :=
  match o with Some z => negb (z =? 0)%Z | None => false end.

Definition truthy_float (o : option FinalFilter.score) : bool :=
  match o with Some q => negb (Qeq_bool q 0) | None => false end.

Definition unorderable_msg : string :=
  "'<' not supported between instances of 'float' and 'NoneType'".

(** [cutoff < min_score or cutoff > max_score] (lines 125, 130); comparing
    with [None] raises. *)
Definition out_of_range (cutoff : FinalFilter.score)
    (min_score max_score : option FinalFilter.score) : Result bool :=
  match min_score with
  | None => Raise (TypeError unorderable_msg)
  | Some lo =>
      if negb (Qle_bool lo cutoff) then Return true
      else match max_score with
           | None => Raise (TypeError unorderable_msg)
           | Some hi => Return (negb (Qle_bool cutoff hi))
           end
  end.

(** Lines 97-106 and 108-119 for one class: the score cutoff after the
    block, and the cutoff struct if the block bound it. *)
Definition resolve_bin (T : Tables) (snv : bool) (bin_cutoff : option Z)
    (score_cutoff : option FinalFilter.score)
    : Result (option FinalFilter.score * option Cutoff) :=
  match bin_cutoff with
  | Some bin =>
      if negb (bin =? 0)%Z
      then score ← bin_min_score T snv bin;
           Return (score, Some (mkCutoff (Some bin) score))
      else Return (score_cutoff, None)
  | None => Return (score_cutoff, None)
  end.

(** Lines 124-127 and 129-132 for one class. *)
Definition check_range (name : string) (score_cutoff : option FinalFilter.score)
    (min_score max_score : option FinalFilter.score)
    (cutoff_global : option Cutoff) : Result (option Cutoff) :=
  match score_cutoff with
  | Some cutoff =>
      if negb (Qeq_bool cutoff 0)
      then out ← out_of_range cutoff min_score max_score;
           if (out : bool)
           then Raise (ValueError (name +:+ " is not within the range of score."))
           else Return (Some (mkCutoff None (Some cutoff)))
      else Return cutoff_global
  | None => Return cutoff_global
  end.

(** Reading a local variable that may not have been bound. *)
Definition read_local {A : Type} (name : string) (v : option A) : Result A :=
  match v with
  | Some a => Return a
  | None => Raise (UnboundLocalError name)
  end.

Definition no_update_msg : string :=
  "'NoneType' object has no attribute 'update'".

(** [generate_final_filter_ht] (lines 24-229), by the [filtering_model]
    global of the table it returns.  The parameter checks of lines 69-94
    come first (they never exit).  Line 165 rebinds [annotations_expr] to
    what [dict.update] returns, which is [None]. *)
Definition generate_final_filter_ht (T : Tables) (model_name score_name : string)
    (snp_bin_cutoff indel_bin_cutoff : option Z)
    (snp_score_cutoff indel_score_cutoff : option FinalFilter.score)
    (aggregated_bin_ht : option FinalFilter.Table) (bin_id : option string)
    : Result FilteringModel :=
  match FinalFilter.generate_final_filter_ht_checks snp_bin_cutoff indel_bin_cutoff
          snp_score_cutoff indel_score_cutoff aggregated_bin_ht bin_id with
  | FinalFilter.ValueError msg => Raise (ValueError msg)
  | FinalFilter.SysExit msg => Raise (LibraryError msg)
  | FinalFilter.Proceed =>
      snp ← resolve_bin T true snp_bin_cutoff snp_score_cutoff;
      indel ← resolve_bin T false indel_bin_cutoff indel_score_cutoff;
      lo ← min_score T;
      hi ← max_score T;
      snp_cutoff_global ← check_range "snp_score_cutoff" snp.1 lo hi snp.2;
      indel_cutoff_global ← check_range "indel_score_cutoff" indel.1 lo hi indel.2;
      missing ← any_missing_score T;
      if (missing : bool) then Raise (ValueError "Missing Score!")
      else
        snv_cutoff ← read_local "snp_cutoff_global" snp_cutoff_global;
        indel_cutoff ← read_local "indel_cutoff_global" indel_cutoff_global;
        _ ← filter_exprs T;
        annotations_expr ←
          (if String.eqb model_name "RF"
           then _ ← rf_fields T; Return None
           else Return (Some tt));
        _ ← match annotations_expr with
            | Some _ => Return tt
            | None => Raise (AttributeError no_update_msg)
            end;
        _ ← rest T;
        Return (mkFilteringModel model_name score_name snv_cutoff indel_cutoff)
  end.

(** The new name of a column whose name ends in [bin] (lines 194-202). *)
Definition bin_name (x : string) : string :=
  let parts := str_split "adj_" x in
  if (length parts =? 2)%nat
  then default "" (parts !! 0%nat) +:+ default "" (parts !! 1%nat)
  else "raw_" +:+ x.

(** [bin_names] (lines 193-202). *)
Definition bin_names (row : list string) : list (string * string) :=
  map (λ x, (x, bin_name x)) (filter (λ x, str_endswith x "bin" = true) row).

End FilterTable.

(** * Further notions on the job graph *)

(** The name of the cluster a stage is registered on. *)
Definition stage_cluster_name (a : VariantQcArgs) (s : Stage) : string :=
  match s with
  | StInfo => "VarQC 1"
  | StAnnotations => "VarQC 2"
  | StFrequencies | StRfAnnotations => "VarQC 3"
  | _ => if run_rf a then "RF" else "VQSR eval"
  end.

(** The name of a stage, without the suffix its placeholder carries. *)
Definition stage_base_name (J : Job) : string :=
  let s := job_name J in
  let k := String.length s - 8 in
  if String.eqb (String.substring k 8 s) " [reuse]" then String.substring 0 k s
  else s.

(** Whether a job is the node that the recalibration sub-pipeline returns,
    and not a job that variant_qc.py registers itself. *)
Definition is_sub_pipeline (J : Job) : bool :=
  match job_action J with
  | SubPipeline _ => true
  | _ => false
  end.

(** Whether [add_variant_qc_jobs] calls [add_vqsr_jobs] (lines 185-203): on
    the recalibration branch, unless the recalibrated VCF can be reused. *)
Definition calls_add_vqsr_jobs (env : Env) (a : VariantQcArgs) : bool :=
  negb (run_rf a)
  && (overwrite a || negb (file_exists env (vqsred_vcf_path a))).

(** [runs_after b h d]: job [h] of the batch depends on job [d], directly
    or through other jobs. *)
Inductive runs_after (b : Batch) : nat → nat → Prop :=
  | runs_after_edge h d J :
      jobs b !! h = Some J → d ∈ job_dependencies J → runs_after b h d
  | runs_after_trans h m d :
      runs_after b h m → runs_after b m d → runs_after b h d.

(** Example inputs of the scripts. *)
Definition example_table : ReleaseVcf.VariantTable :=
  ReleaseVcf.mkTable
    (λ name, if String.eqb name "faf_index_dict" then [("adj", 0%Z)]
             else [("adj", 0%Z); ("raw", 1%Z); ("oth-adj", 2%Z)])
    true.

Definition example_tables : FilterTable.Tables :=
  FilterTable.mkTables
    (λ snv bin, Return (Some (if (bin =? 100)%Z then 0%Q else (9 # 10)%Q)))
    (Return (Some 0%Q)) (Return (Some 1%Q)) (Return false)
    (Return tt) (Return tt) (Return tt).

(** * Runs of the construction

    Every run is stepped from a batch written as the caller's jobs followed
    by the jobs allocated so far, so that handles read [length l + k]. *)

Lemma bind_ret {A B : Type} (x : A) (k : A → Build B) (b : Batch) :
  bind (ret x) k b = k x b.
Proof. reflexivity. Qed.

Lemma bind_bind {A B C : Type} (m : Build A) (f : A → Build B) (g : B → Build C)
    (b : Batch) :
  bind (bind m f) g b = bind m (λ x, bind (f x) g) b.
Proof. unfold bind. destruct (m b) as [x b1]. reflexivity. Qed.

Lemma bind_push_job {B : Type} (J : Job) (k : nat → Build B) l acc cs :
  bind (push_job J) k (mkBatch (l ++ acc) cs)
  = k (length l + length acc) (mkBatch (l ++ (acc ++ [J])) cs).
Proof.
  unfold bind, push_job. cbn [jobs clusters].
  rewrite length_app, <- app_assoc. reflexivity.
Qed.

Lemma bind_Job_depends_on {B : Type} (i : nat) (ds : list nat)
    (k : unit → Build B) l acc cs :
  bind (Job_depends_on (length l + i) ds) k (mkBatch (l ++ acc) cs)
  = k tt (mkBatch (l ++ alter (add_dependencies ds) i acc) cs).
Proof.
  unfold bind, Job_depends_on. cbn [jobs clusters].
  rewrite alter_app_r. reflexivity.
Qed.

Lemma bind_get_cluster {B : Type} name n t d long (k : nat → Build B) js c cacc :
  bind (get_cluster name n t d long) k (mkBatch js (c ++ cacc))
  = k (length c + length cacc)
      (mkBatch js (c ++ (cacc ++ [mkCluster name n t long (or_nil d)]))).
Proof.
  unfold bind, get_cluster. cbn [jobs clusters].
  rewrite length_app, <- app_assoc. reflexivity.
Qed.

(** A stage whose two forms are both a single allocation. *)
Lemma bind_stage_plain {B : Type} (c : bool) (J1 J2 : Job) (k : nat → Build B)
    l acc cs :
  bind (if c then push_job J1 else push_job J2) k (mkBatch (l ++ acc) cs)
  = k (length l + length acc)
      (mkBatch (l ++ (acc ++ [if c then J1 else J2])) cs).
Proof. destruct c; apply bind_push_job. Qed.

Lemma alter_last {A : Type} (f : A → A) (acc : list A) (x : A) :
  alter f (length acc) (acc ++ [x]) = acc ++ [f x].
Proof.
  rewrite <- (Nat.add_0_r (length acc)), alter_app_r. reflexivity.
Qed.

(** An executed stage wired to [ds] inside its branch. *)
Lemma bind_stage_wired {B : Type} (c : bool) (J1 J2 : Job) (ds : list nat)
    (k : nat → Build B) l acc cs :
  bind (if c
        then bind (push_job J1) (λ j, bind (Job_depends_on j ds) (λ _, ret j))
        else push_job J2) k (mkBatch (l ++ acc) cs)
  = k (length l + length acc)
      (mkBatch (l ++ (acc ++ [if c then add_dependencies ds J1 else J2])) cs).
Proof.
  destruct c; [| apply bind_push_job].
  rewrite bind_bind, bind_push_job, bind_bind, bind_Job_depends_on, bind_ret.
  rewrite alter_last. reflexivity.
Qed.

(** An executed stage wired to the optional run-level dependencies. *)
Lemma bind_stage_gated {B : Type} (c d : bool) (J1 J2 : Job) (ds : list nat)
    (k : nat → Build B) l acc cs :
  bind (if c
        then bind (push_job J1)
               (λ j, bind (if d then Job_depends_on j ds else ret tt) (λ _, ret j))
        else push_job J2) k (mkBatch (l ++ acc) cs)
  = k (length l + length acc)
      (mkBatch (l ++ (acc ++ [if c then (if d then add_dependencies ds J1 else J1)
                              else J2])) cs).
Proof.
  destruct c; [| apply bind_push_job].
  rewrite bind_bind, bind_push_job, bind_bind.
  destruct d.
  - rewrite bind_Job_depends_on, bind_ret, alter_last. reflexivity.
  - rewrite !bind_ret. reflexivity.
Qed.

Lemma bind_gated_depends_on {B : Type} (d : bool) (i : nat) (ds : list nat)
    (k : unit → Build B) l acc cs :
  bind (if d then Job_depends_on (length l + i) ds else ret tt) k
    (mkBatch (l ++ acc) cs)
  = k tt (mkBatch
            (l ++ alter (λ J, if d then add_dependencies ds J else J) i acc) cs).
Proof.
  destruct d; [apply bind_Job_depends_on |].
  rewrite bind_ret, list_alter_id by reflexivity. reflexivity.
Qed.

(** Normalises the handles and the allocated list after a step. *)
Ltac tidy := cbv beta; cbn [length app Nat.add alter list_alter].

(** One step of a run: reassociate, apply the rule for the statement at the
    head, normalise. *)
Ltac step rule := rewrite ?bind_bind; rewrite rule; tidy.

Lemma add_rf_eval_jobs_frame_run {B : Type} env cl mt isp rfr rfa fam freq mid wb ow d
    (k : RfEvalFrame → Build B) l acc cs :
  bind (add_rf_eval_jobs_frame env cl mt isp rfr rfa fam freq mid wb ow d) k
    (mkBatch (l ++ acc) cs)
  = k (mkRfEvalFrame (length l + length acc) (length l + S (length acc))
         (join wb "final-filter.ht"))
      (mkBatch (l ++ (acc ++ [rf_evaluation_node env cl mt isp rfa fam wb ow rfr d;
                              rf_final_filter_node env cl isp freq wb ow mid
                                (length l + length acc)])) cs).
Proof.
  unfold add_rf_eval_jobs_frame, add_job, new_job. cbv zeta.
  rewrite bind_bind, bind_stage_gated. tidy.
  rewrite bind_bind, bind_stage_wired. tidy.
  rewrite bind_ret, <- app_assoc, length_app, Nat.add_1_r. reflexivity.
Qed.

Lemma add_vqsr_eval_jobs_frame_run {B : Type} env cl mt rfa isp vcf rfr fam freq wb ab ow
    vj raj out (k : VqsrEvalFrame → Build B) l acc cs :
  bind (add_vqsr_eval_jobs_frame env cl mt rfa isp vcf rfr fam freq wb ab ow vj raj out)
    k (mkBatch (l ++ acc) cs)
  = k (mkVqsrEvalFrame (length l + length acc) (length l + S (length acc))
         (length l + S (S (length acc))))
      (mkBatch (l ++ (acc ++ [load_vqsr_node env cl wb ow vcf vj;
                              vqsr_evaluation_node env cl mt isp rfa fam wb ow rfr
                                (length l + length acc) raj;
                              vqsr_final_filter_node env cl isp freq wb out
                                (length l + S (length acc))])) cs).
Proof.
  unfold add_vqsr_eval_jobs_frame, add_job, new_job. cbv zeta.
  rewrite bind_bind, bind_stage_wired. tidy.
  rewrite bind_bind, bind_stage_wired. tidy.
  rewrite bind_bind, bind_stage_wired. tidy.
  rewrite bind_ret, <- !app_assoc, !length_app. cbn [length app].
  replace (length acc + 1) with (S (length acc)) by lia.
  replace (length acc + (1 + 1)) with (S (S (length acc))) by lia.
  reflexivity.
Qed.

Lemma export_chromosomes_run env a {B : Type} cl fh chroms :
  ∀ (jobs : list nat) (k : list nat → Build B) l acc cs,
    bind (export_chromosomes env a cl (export_ht_path a) (export_vcf_header_txt a) fh
            chroms jobs) k (mkBatch (l ++ acc) cs)
    = k (jobs ++ seq (length l + length acc) (length chroms))
        (mkBatch (l ++ (acc ++ map (export_node env a cl fh) chroms)) cs).
Proof.
  induction chroms as [| chrom chroms IH]; intros jobs k l acc cs.
  - cbn [export_chromosomes map seq length]. rewrite bind_ret, !app_nil_r.
    reflexivity.
  - cbn [export_chromosomes]. unfold add_job, new_job. cbv zeta.
    rewrite bind_bind, bind_stage_plain. cbv beta.
    rewrite bind_bind, bind_Job_depends_on, alter_last. cbv beta.
    rewrite IH. rewrite length_app, <- !app_assoc. cbn [length app map seq].
    rewrite Nat.add_1_r, Nat.add_succ_r. reflexivity.
Qed.

(** The construction appends exactly [variant_qc_nodes] to the caller's jobs
    and [variant_qc_clusters] to the caller's clusters, and leaves the
    caller's jobs as they were. *)
Lemma add_variant_qc_jobs_frame_run env a b :
  add_variant_qc_jobs_frame env a b
  = (variant_qc_frame a (length (jobs b)) (length (clusters b)),
     mkBatch (jobs b ++ variant_qc_nodes env a (length (jobs b)) (length (clusters b)))
             (clusters b ++ variant_qc_clusters a (length (jobs b)))).
Proof.
  destruct b as [l cs]. cbn [jobs clusters].
  replace (mkBatch l cs) with (mkBatch (l ++ []) (cs ++ []))
    by (rewrite !app_nil_r; reflexivity).
  unfold add_variant_qc_jobs_frame, variant_qc_frame, variant_qc_nodes,
    variant_qc_clusters, add_job, new_job, add_vqsr_jobs.
  cbv zeta.
  rewrite !bind_get_cluster. tidy.
  rewrite bind_stage_plain. tidy.
  rewrite bind_gated_depends_on. tidy.
  rewrite bind_stage_gated. tidy.
  rewrite bind_stage_gated. tidy.
  rewrite bind_stage_wired. tidy.
  destruct (run_rf a).
  - step @bind_get_cluster.
    step @bind_stage_wired.
    step @add_rf_eval_jobs_frame_run.
    step @bind_ret. cbv iota. cbn [rf_final_filter_job rf_final_filter_ht_path].
    step @bind_stage_wired.
    step @bind_stage_plain.
    step @bind_Job_depends_on.
    step (@export_chromosomes_run env a).
    reflexivity.
  - step @bind_stage_plain.
    step @bind_get_cluster.
    step @add_vqsr_eval_jobs_frame_run. cbn [vqsr_final_filter_job].
    step @bind_Job_depends_on.
    step @bind_ret. cbv iota.
    step @bind_stage_wired.
    step @bind_stage_plain.
    step @bind_Job_depends_on.
    step (@export_chromosomes_run env a).
    reflexivity.
Qed.

Lemma lookup_app_add {A : Type} (l1 l2 : list A) (k : nat) :
  (l1 ++ l2) !! (length l1 + k) = l2 !! k.
Proof.
  rewrite lookup_app_r by lia. f_equal. lia.
Qed.

Lemma lookup_map {A B : Type} (f : A → B) (l : list A) (i : nat) :
  map f l !! i = f <$> l !! i.
Proof. apply (list_lookup_fmap f l i). Qed.

Lemma new_jobs_run env a b :
  new_jobs b (add_variant_qc_jobs_frame env a b).2
  = variant_qc_nodes env a (length (jobs b)) (length (clusters b)).
Proof.
  rewrite add_variant_qc_jobs_frame_run. unfold new_jobs. cbn [snd jobs].
  apply drop_app_length.
Qed.

(** The caller's own jobs are not touched. *)
Lemma caller_jobs_preserved env a b i :
  i < length (jobs b) →
  jobs (add_variant_qc_jobs_frame env a b).2 !! i = jobs b !! i.
Proof.
  intros Hi. rewrite add_variant_qc_jobs_frame_run. cbn [snd jobs].
  apply lookup_app_l. exact Hi.
Qed.

(** Unfolds a node down to its record and splits on the conditions that
    select its form. *)
Ltac node_cases :=
  unfold info_node, annotations_node, frequencies_node, rf_annotations_node,
    random_forest_node, vqsr_pipeline_node, final_mt_node, export_prepare_node,
    export_node, rf_evaluation_node, rf_final_filter_node, load_vqsr_node,
    vqsr_evaluation_node, vqsr_final_filter_node, gated;
  cbv zeta; repeat case_match;
  unfold add_dependencies, command_node, reuse_node;
  cbn [job_name job_action job_dependencies].

Lemma export_node_name env a cl fh chrom :
  job_name (export_node env a cl fh chrom)
  = "Making final VCF: HT to VCF for chr" +:+ chrom
  ∨ job_name (export_node env a cl fh chrom)
    = "Making final VCF: HT to VCF for chr" +:+ chrom +:+ " [reuse]".
Proof. node_cases; [left | right]; reflexivity. Qed.

Lemma export_layout (f : string → Job) (chroms : list string) :
  ∀ (l pre : list Job) (m : nat),
    m = length l + length pre →
    Forall2 (λ j chrom, (l ++ pre ++ map f chroms) !! j = Some (f chrom))
      (seq m (length chroms)) chroms.
Proof.
  induction chroms as [| chrom chroms IH]; intros l pre m ->; cbn [length seq map].
  - constructor.
  - constructor.
    + rewrite lookup_app_add. rewrite <- (Nat.add_0_r (length pre)).
      rewrite lookup_app_add. reflexivity.
    + specialize (IH l (pre ++ [f chrom]) (S (length l + length pre))).
      rewrite <- app_assoc in IH. cbn [app] in IH.
      eapply Forall2_impl; [apply IH |]; [rewrite length_app; cbn; lia | auto].
Qed.

Lemma chromosomes_eq :
  chromosomes
  = ["1"; "2"; "3"; "4"; "5"; "6"; "7"; "8"; "9"; "10"; "11"; "12"; "13"; "14";
     "15"; "16"; "17"; "18"; "19"; "20"; "21"; "22"; "X"; "Y"].
Proof. vm_compute. reflexivity. Qed.

Lemma export_node_dependencies env a cl fh chrom :
  job_dependencies (export_node env a cl fh chrom) = {[fh]}.
Proof. node_cases; cbn [list_to_set]; by rewrite (left_id_L ∅ (∪)), (right_id_L ∅ (∪)). Qed.

Lemma export_prepare_node_name env a cl fm :
  is_export_prepare_stage (export_prepare_node env a cl fm) = true.
Proof. unfold is_export_prepare_stage. node_cases; reflexivity. Qed.

Lemma export_node_is_export env a cl fh chrom :
  is_export_stage (export_node env a cl fh chrom) = true.
Proof. unfold is_export_stage. node_cases; by destruct chrom. Qed.

(** Each stage variable of the returned frame points, in the returned
    batch, to the node of that stage. *)
Lemma stage_job_run env a b s :
  let r := add_variant_qc_jobs_frame env a b in
  stage_job r.1 r.2 s = stage_node env a (length (jobs b)) (length (clusters b)) s.
Proof.
  cbv zeta. rewrite add_variant_qc_jobs_frame_run. cbn [fst snd].
  unfold stage_job, stage_node, variant_qc_frame, variant_qc_nodes.
  destruct (run_rf a), s; cbn [stage_handle branch info_job var_qc_anno_job
    freq_job rf_anno_job final_mt_j final_ht_j export_jobs rf_eval_job
    rf_final_filter_job load_vqsr_job vqsr_eval_job vqsr_final_filter_job
    mbind option_bind jobs];
    try reflexivity; try (rewrite lookup_app_add; reflexivity).
  all: destruct (le_lt_dec (length chromosomes) i) as [Hi | Hi].
  all: try (rewrite lookup_seq_ge, (lookup_ge_None_2 chromosomes i) by exact Hi;
    reflexivity).
  all:     (rewrite lookup_seq_lt by exact Hi;
            destruct (lookup_lt_is_Some_2 chromosomes i Hi) as [chrom Hc];
            rewrite Hc; cbn [mbind option_bind];
            rewrite <- Nat.add_assoc, lookup_app_add;
            unfold common_nodes, rf_branch_nodes, vqsr_branch_nodes,
              export_tail_nodes;
            cbn [app Nat.add lookup list_lookup];
            rewrite <- Hc; apply lookup_map).
Qed.

Lemma variant_qc_nodes_layout env a n c :
  variant_qc_nodes env a n c
  = chain_nodes env a n c
    ++ map (export_node env a (c + 3) (n + (chain_length a - 1))) chromosomes.
Proof.
  unfold variant_qc_nodes, chain_nodes, chain_length, export_tail_nodes.
  destruct (run_rf a); cbn [Nat.sub]; rewrite <- !app_assoc; reflexivity.
Qed.

Lemma chain_nodes_length env a n c :
  length (chain_nodes env a n c) = chain_length a.
Proof. unfold chain_nodes, chain_length. destruct (run_rf a); reflexivity. Qed.

Lemma chain_nodes_not_export env a n c :
  Forall (λ J, is_export_stage J = false) (chain_nodes env a n c).
Proof.
  unfold chain_nodes, common_nodes, rf_branch_nodes, vqsr_branch_nodes.
  destruct (run_rf a); cbn [app]; repeat constructor;
    unfold is_export_stage; node_cases; reflexivity.
Qed.

Lemma final_ht_j_run env a b :
  final_ht_j (add_variant_qc_jobs_frame env a b).1
  = length (jobs b) + (chain_length a - 1).
Proof.
  rewrite add_variant_qc_jobs_frame_run. unfold variant_qc_frame, chain_length.
  destruct (run_rf a); reflexivity.
Qed.

Lemma export_jobs_run env a b :
  export_jobs (add_variant_qc_jobs_frame env a b).1
  = seq (length (jobs b) + chain_length a) (length chromosomes).
Proof.
  rewrite add_variant_qc_jobs_frame_run. unfold variant_qc_frame, chain_length.
  destruct (run_rf a); reflexivity.
Qed.

Lemma jobs_run env a b :
  jobs (add_variant_qc_jobs_frame env a b).2
  = jobs b ++ chain_nodes env a (length (jobs b)) (length (clusters b))
    ++ map (export_node env a (length (clusters b) + 3)
              (length (jobs b) + (chain_length a - 1))) chromosomes.
Proof.
  rewrite add_variant_qc_jobs_frame_run. cbn [snd jobs].
  rewrite variant_qc_nodes_layout. reflexivity.
Qed.

Lemma add_variant_qc_jobs_run env a b :
  add_variant_qc_jobs env a b
  = (export_jobs (add_variant_qc_jobs_frame env a b).1,
     (add_variant_qc_jobs_frame env a b).2).
Proof.
  unfold add_variant_qc_jobs, bind, ret.
  destruct (add_variant_qc_jobs_frame env a b) as [fr b']. reflexivity.
Qed.

Lemma export_node_branch_free env a cl fh chrom :
  is_recalibration_stage (export_node env a cl fh chrom) = false
  ∧ is_random_forest_stage (export_node env a cl fh chrom) = false.
Proof.
  unfold is_recalibration_stage, is_random_forest_stage.
  node_cases; split; reflexivity.
Qed.

Ltac split_on_store env :=
  repeat match goal with
         | |- context [file_exists env ?p] => destruct (file_exists env p)
         end.

Lemma stage_node_reused env a n c s J :
  overwrite a = false →
  stage_node env a n c s = Some J →
  is_reused J = forallb (file_exists env) (stage_targets env a s).
Proof.
  intros Hov. unfold stage_node, stage_targets. cbv zeta.
  destruct s; try destruct (run_rf a); try discriminate;
    try (destruct (chromosomes !! i) as [chrom |]; [| discriminate]);
    cbn [fmap option_fmap option_map]; intros [= <-];
    unfold info_node, annotations_node, frequencies_node, rf_annotations_node,
      random_forest_node, vqsr_pipeline_node, final_mt_node, export_prepare_node,
      export_node, rf_evaluation_node, rf_final_filter_node, load_vqsr_node,
      vqsr_evaluation_node, vqsr_final_filter_node, gated, can_reuse, is_reused;
    rewrite ?Hov; cbv zeta;
    try destruct (truthy_str (fam_stats_ht_path a));
    cbn [existsb forallb app orb andb negb];
    split_on_store env;
    cbn [existsb forallb app orb andb negb];
    try destruct (truthy_list (depends_on a));
    reflexivity.
Qed.

Lemma chain_stages_handle env a b k s :
  chain_stages a !! k = Some s →
  stage_handle (add_variant_qc_jobs_frame env a b).1 s = Some (length (jobs b) + k).
Proof.
  rewrite add_variant_qc_jobs_frame_run. unfold chain_stages, variant_qc_frame.
  cbn [fst]. destruct (run_rf a);
    do 10 (destruct k as [| k]; [intros [= <-]; reflexivity |]);
    discriminate.
Qed.

(** Every job the call appends is held by one of the stage variables. *)
Lemma stage_coverage env a b h :
  (length (jobs b) ≤ h < length (jobs (add_variant_qc_jobs_frame env a b).2))%nat →
  ∃ s, stage_handle (add_variant_qc_jobs_frame env a b).1 s = Some h.
Proof.
  rewrite jobs_run, !length_app, length_map, chain_nodes_length.
  intros [Hlo Hhi].
  destruct (le_lt_dec (chain_length a) (h - length (jobs b))) as [Hk | Hk].
  - exists (StExport (h - length (jobs b) - chain_length a)).
    cbn [stage_handle]. rewrite export_jobs_run, lookup_seq_lt by lia.
    f_equal. lia.
  - destruct (lookup_lt_is_Some_2 (chain_stages a) (h - length (jobs b)))
      as [s Hs].
    { unfold chain_stages, chain_length in *. destruct (run_rf a); exact Hk. }
    exists s. rewrite (chain_stages_handle env a b _ s Hs). f_equal. lia.
Qed.

Lemma forallb_true_iff {A : Type} (f : A → bool) (l : list A) :
  forallb f l = true ↔ ∀ x, x ∈ l → f x = true.
Proof.
  rewrite forallb_forall. split; intros H x Hx; apply H, list_elem_of_In, Hx.
Qed.

Lemma forallb_false_iff {A : Type} (f : A → bool) (l : list A) :
  forallb f l = false ↔ ∃ x, x ∈ l ∧ f x = false.
Proof.
  induction l as [| y l IH]; cbn [forallb].
  - split; [discriminate | intros (x & Hx & _); inversion Hx].
  - rewrite andb_false_iff, IH. split.
    + intros [Hy | (x & Hx & Hfx)];
        [exists y | exists x]; split; auto; constructor; exact Hx.
    + intros (x & Hx & Hfx). apply elem_of_cons in Hx as [-> | Hx];
        [left; exact Hfx | right; exists x; auto].
Qed.

Lemma stage_node_overwrite env a n c s J :
  overwrite a = true →
  s ≠ StVqsrFinalFilter →
  stage_node env a n c s = Some J →
  is_executed J = true.
Proof.
  intros Hov Hs. unfold stage_node. cbv zeta.
  destruct s; try congruence; try destruct (run_rf a); try discriminate;
    try (destruct (chromosomes !! i) as [chrom |]; [| discriminate]);
    cbn [fmap option_fmap option_map]; intros [= <-];
    unfold info_node, annotations_node, frequencies_node, rf_annotations_node,
      random_forest_node, vqsr_pipeline_node, final_mt_node, export_prepare_node,
      export_node, rf_evaluation_node, rf_final_filter_node, load_vqsr_node,
      vqsr_evaluation_node, gated, can_reuse, is_executed, is_reused;
    rewrite ?Hov; cbv zeta;
    try destruct (truthy_str (fam_stats_ht_path a));
    cbn [existsb forallb app orb andb negb];
    try destruct (truthy_list (depends_on a));
    try destruct (truthy_list (Some _));
    reflexivity.
Qed.

Lemma run_as_bind {A : Type} (m : Build A) (b : Batch) : m b = bind m ret b.
Proof. unfold bind, ret. destruct (m b). reflexivity. Qed.

Lemma batch_as_appended (b : Batch) : b = mkBatch (jobs b ++ []) (clusters b).
Proof. destruct b. cbn [jobs clusters]. rewrite app_nil_r. reflexivity. Qed.

Lemma string_length_append (x y : string) :
  String.length (x +:+ y) = String.length x + String.length y.
Proof.
  induction x as [| ch x IH]; simpl; [reflexivity | f_equal; exact IH].
Qed.

Lemma append_inj_l (p x y : string) : p +:+ x = p +:+ y → x = y.
Proof. apply String.app_inj. Qed.

Lemma append_inj_r (t : string) : ∀ x y : string, x +:+ t = y +:+ t → x = y.
Proof.
  induction x as [| ch x IH]; intros [| ch' y] H; simpl in H.
  - reflexivity.
  - apply (f_equal String.length) in H.
    rewrite !string_length_append in H. simpl in H. lia.
  - apply (f_equal String.length) in H.
    rewrite !string_length_append in H. simpl in H. lia.
  - injection H as -> H. f_equal. apply IH, H.
Qed.

Example checks_bin_and_score :
  FinalFilter.generate_final_filter_ht_checks (Some 90%Z) None None (Some (1 # 2)%Q)
    (Some "agg.ht") (Some "bin") = FinalFilter.Proceed.
Proof. reflexivity. Qed.

Example checks_both_snp :
  FinalFilter.generate_final_filter_ht_checks (Some 90%Z) None (Some (1 # 2)%Q) (Some (1 # 2)%Q)
    (Some "agg.ht") (Some "bin") = FinalFilter.ValueError FinalFilter.snp_exclusive_msg.
Proof. reflexivity. Qed.

Example checks_no_indel :
  FinalFilter.generate_final_filter_ht_checks (Some 90%Z) None None None
    (Some "agg.ht") (Some "bin") = FinalFilter.ValueError FinalFilter.indel_missing_msg.
Proof. reflexivity. Qed.

(** ** The entry point of final_filter.py *)

(** [get_score_bins] is not among the names the module binds, so [main]
    ends at its first read of it. *)
Lemma main_ends_in_NameError (w : FinalFilter.World) (args : FinalFilter.Args) :
  FinalFilter.main w args
  = ([FinalFilter.InitHail], FinalFilter.NameError "get_score_bins").
Proof. reflexivity. Qed.

(** * The claims *)

(** C1.  Whatever the inputs ([run_rf], [overwrite] and the state of the
    store included), [add_variant_qc_jobs] returns exactly the list of export
    jobs; there are 24 of them, pairwise distinct, one for each chromosome of
    1..22, X, Y in that order; each carries exactly one dependency edge, which
    points to the export-prepare stage; no export stage depends on another
    export stage; and among the jobs the call appends, the export stages are
    exactly the 24 returned ones. *)
Theorem export_fan_out env a b :
  let fr := (add_variant_qc_jobs_frame env a b).1 in
  let b' := (add_variant_qc_jobs_frame env a b).2 in
  add_variant_qc_jobs env a b = (export_jobs fr, b')
  ∧ chromosomes
    = ["1"; "2"; "3"; "4"; "5"; "6"; "7"; "8"; "9"; "10"; "11"; "12"; "13";
       "14"; "15"; "16"; "17"; "18"; "19"; "20"; "21"; "22"; "X"; "Y"]
  ∧ length (export_jobs fr) = 24
  ∧ NoDup (export_jobs fr)
  ∧ Forall2
      (λ j chrom, ∃ J,
         jobs b' !! j = Some J
         ∧ (job_name J = "Making final VCF: HT to VCF for chr" +:+ chrom
            ∨ job_name J
              = "Making final VCF: HT to VCF for chr" +:+ chrom +:+ " [reuse]")
         ∧ job_dependencies J = {[final_ht_j fr]}
         ∧ size (job_dependencies J) = 1)
      (export_jobs fr) chromosomes
  ∧ (∃ P, jobs b' !! final_ht_j fr = Some P ∧ is_export_prepare_stage P = true)
  ∧ (∀ j j' J, j ∈ export_jobs fr → j' ∈ export_jobs fr →
       jobs b' !! j = Some J → j' ∉ job_dependencies J)
  ∧ (∀ h J, (length (jobs b) ≤ h)%nat → jobs b' !! h = Some J →
       (is_export_stage J = true ↔ h ∈ export_jobs fr)).
Proof.
  cbv zeta.
  pose proof (chain_nodes_length env a (length (jobs b)) (length (clusters b)))
    as Hlen.
  pose proof (chain_nodes_not_export env a (length (jobs b)) (length (clusters b)))
    as Hchain.
  assert (Hpos : (1 ≤ chain_length a)%nat) by (unfold chain_length; destruct (run_rf a); lia).
  assert (Hlay :
    Forall2 (λ j chrom,
        jobs (add_variant_qc_jobs_frame env a b).2 !! j
        = Some (export_node env a (length (clusters b) + 3)
                  (length (jobs b) + (chain_length a - 1)) chrom))
      (seq (length (jobs b) + chain_length a) (length chromosomes)) chromosomes).
  { rewrite jobs_run. apply export_layout. rewrite Hlen. reflexivity. }
  rewrite export_jobs_run, final_ht_j_run.
  split; [| split; [| split; [| split; [| split; [| split; [| split]]]]]].
  - rewrite add_variant_qc_jobs_run, export_jobs_run. reflexivity.
  - apply chromosomes_eq.
  - rewrite length_seq. reflexivity.
  - apply NoDup_seq.
  - eapply Forall2_impl; [apply Hlay |].
    intros j chrom Hj. eexists. split; [exact Hj |].
    split; [apply export_node_name |].
    rewrite export_node_dependencies. split; [reflexivity | apply size_singleton].
  - rewrite jobs_run.
    replace (length (jobs b) + (chain_length a - 1))
      with (length (jobs b) + (length (chain_nodes env a (length (jobs b))
              (length (clusters b))) - 1)) by (rewrite Hlen; reflexivity).
    rewrite lookup_app_add.
    unfold chain_nodes, common_nodes, rf_branch_nodes, vqsr_branch_nodes.
    destruct (run_rf a); cbn [app length Nat.sub lookup list_lookup];
      (eexists; split; [reflexivity | apply export_prepare_node_name]).
  - intros j j' J Hj Hj' HJ Hdep.
    apply list_elem_of_lookup in Hj as [i Hi].
    destruct (Forall2_lookup_l _ _ _ _ _ Hlay Hi) as (chrom & _ & HJ').
    rewrite HJ in HJ'. injection HJ' as ->.
    rewrite export_node_dependencies in Hdep.
    apply elem_of_singleton in Hdep. subst j'.
    apply elem_of_seq in Hj'. lia.
  - intros h J Hh HJ. rewrite elem_of_seq.
    rewrite jobs_run in HJ.
    replace h with (length (jobs b) + (h - length (jobs b))) in HJ by lia.
    rewrite lookup_app_add in HJ.
    destruct (decide (h - length (jobs b) < chain_length a)) as [Hk | Hk].
    + rewrite lookup_app_l in HJ by (rewrite Hlen; exact Hk).
      apply list_elem_of_lookup_2 in HJ.
      rewrite Forall_forall in Hchain. rewrite (Hchain J HJ).
      split; [discriminate | lia].
    + rewrite lookup_app_r in HJ by (rewrite Hlen; lia).
      pose proof (lookup_lt_Some _ _ _ HJ) as Hlt.
      rewrite length_map, Hlen in Hlt.
      rewrite lookup_map in HJ.
      destruct (chromosomes !! _) as [chrom |]; [| discriminate].
      injection HJ as <-. rewrite export_node_is_export.
      split; [lia | reflexivity].
Qed.

(** C2.  With [run_rf] set, none of the jobs the call appends is a stage of
    the recalibration branch (pipeline, load_vqsr, evaluation, final filter)
    and the random-forest stages are there; with [run_rf] unset, none is a
    stage of the random-forest branch (random forest, evaluation, final
    filter) and the recalibration stages are there. *)
Theorem filtering_branches_exclusive env a b :
  let appended := new_jobs b (add_variant_qc_jobs_frame env a b).2 in
  if run_rf a
  then Forall (λ J, is_recalibration_stage J = false) appended
       ∧ Exists (λ J, is_random_forest_stage J = true) appended
  else Forall (λ J, is_random_forest_stage J = false) appended
       ∧ Exists (λ J, is_recalibration_stage J = true) appended.
Proof.
  cbv zeta. rewrite new_jobs_run, variant_qc_nodes_layout.
  assert (Hexp : ∀ cl fh,
    Forall (λ J, is_recalibration_stage J = false
                 ∧ is_random_forest_stage J = false)
      (map (export_node env a cl fh) chromosomes)).
  { intros cl fh. apply Forall_forall. intros J HJ.
    apply list_elem_of_In, in_map_iff in HJ.
    destruct HJ as (chrom & <- & _). apply export_node_branch_free. }
  unfold chain_nodes, common_nodes, rf_branch_nodes, vqsr_branch_nodes.
  destruct (run_rf a); (split; [apply Forall_app; split |]).
  - cbn [app]. unfold is_recalibration_stage.
    repeat (apply Forall_cons; split; [node_cases; reflexivity |]).
    constructor.
  - eapply Forall_impl; [apply Hexp |]. intros J [H _]. exact H.
  - cbn [app]. do 4 apply Exists_cons_tl. apply Exists_cons_hd.
    unfold is_random_forest_stage. node_cases; reflexivity.
  - cbn [app]. unfold is_random_forest_stage.
    repeat (apply Forall_cons; split; [node_cases; reflexivity |]).
    constructor.
  - eapply Forall_impl; [apply Hexp |]. intros J [_ H]. exact H.
  - cbn [app]. do 4 apply Exists_cons_tl. apply Exists_cons_hd.
    unfold is_recalibration_stage. node_cases; reflexivity.
Qed.

(** C3.  With [overwrite] set, the reuse check returns false and every stage
    other than the AS-VQSR final filter is built with its command; the AS-VQSR
    final-filter stage of [add_vqsr_eval_jobs] is not: when its output table
    exists it is built as the placeholder although the reuse check on that
    table returns false. *)
Theorem vqsr_final_filter_ignores_overwrite env a b :
  let fr := (add_variant_qc_jobs_frame env a b).1 in
  let b' := (add_variant_qc_jobs_frame env a b).2 in
  overwrite a = true →
  run_rf a = false →
  file_exists env (join (join (work_bucket a) "vqsr") "final-filter.ht") = true →
  (∀ fp, can_reuse env fp (overwrite a) = false)
  ∧ (∀ s J, s ≠ StVqsrFinalFilter → stage_job fr b' s = Some J →
            is_executed J = true)
  ∧ (∃ J, stage_job fr b' StVqsrFinalFilter = Some J
          ∧ is_reused J = true
          ∧ job_name J = "AS-VQSR: final filter [reuse]").
Proof.
  cbv zeta. intros Hov Hrf Hex. split; [| split].
  - intros fp. unfold can_reuse. rewrite Hov. reflexivity.
  - intros s J Hs HJ. rewrite stage_job_run in HJ.
    exact (stage_node_overwrite env a _ _ s J Hov Hs HJ).
  - rewrite stage_job_run. unfold stage_node. cbv zeta. rewrite Hrf.
    eexists. split; [reflexivity |].
    unfold vqsr_final_filter_node, vqsr_bucket. rewrite Hex.
    split; reflexivity.
Qed.

Lemma vqsr_final_filter_ignores_overwrite_witness :
  let env := example_env (λ _, true) in
  let a := example_args true false in
  let fr := (add_variant_qc_jobs_frame env a example_batch).1 in
  let b' := (add_variant_qc_jobs_frame env a example_batch).2 in
  ∃ J, stage_job fr b' StVqsrFinalFilter = Some J
       ∧ is_reused J = true
       ∧ job_name J = "AS-VQSR: final filter [reuse]".
Proof.
  cbv zeta.
  apply (vqsr_final_filter_ignores_overwrite (example_env (λ _, true))
           (example_args true false) example_batch); reflexivity.
Defined.

(** C4.  With [overwrite] unset, every job the call appends is a stage, and
    a stage is built as a placeholder exactly when every path its reuse check
    lists exists, and with a command exactly when one of them is missing; so
    the info stage is reused exactly when info.ht and info-split.ht both
    exist, and the export-prepare stage exactly when the export table and the
    header file both exist. *)
Theorem reuse_iff_targets_exist env a b :
  let fr := (add_variant_qc_jobs_frame env a b).1 in
  let b' := (add_variant_qc_jobs_frame env a b).2 in
  overwrite a = false →
  (∀ h, (length (jobs b) ≤ h < length (jobs b'))%nat →
        ∃ s, stage_handle fr s = Some h)
  ∧ (∀ s J, stage_job fr b' s = Some J →
       (is_reused J = true
        ↔ ∀ p, p ∈ stage_targets env a s → file_exists env p = true)
       ∧ (is_executed J = true
          ↔ ∃ p, p ∈ stage_targets env a s ∧ file_exists env p = false))
  ∧ (∃ J, stage_job fr b' StInfo = Some J
       ∧ (is_reused J = true
          ↔ file_exists env (join (work_bucket a) "info.ht") = true
            ∧ file_exists env (join (work_bucket a) "info-split.ht") = true))
  ∧ (∃ J, stage_job fr b' StExportPrepare = Some J
       ∧ (is_reused J = true
          ↔ file_exists env (join (work_bucket a) "export_vcf.ht") = true
            ∧ file_exists env (join (work_bucket a) "export_vcf_header.txt") = true)).
Proof.
  cbv zeta. intros Hov.
  split; [intros h Hh; apply stage_coverage, Hh |].
  split; [| split].
  - intros s J HJ. rewrite stage_job_run in HJ.
    pose proof (stage_node_reused env a _ _ s J Hov HJ) as Hr.
    unfold is_executed. rewrite Hr. split.
    + apply forallb_true_iff.
    + rewrite negb_true_iff. apply forallb_false_iff.
  - rewrite stage_job_run. eexists. split; [reflexivity |].
    rewrite (stage_node_reused env a (length (jobs b)) (length (clusters b)) StInfo _ Hov eq_refl).
    cbn [stage_targets forallb]. rewrite andb_true_r, andb_true_iff. reflexivity.
  - rewrite stage_job_run. eexists. split; [reflexivity |].
    rewrite (stage_node_reused env a (length (jobs b)) (length (clusters b))
               StExportPrepare _ Hov eq_refl).
    cbn [stage_targets forallb]. rewrite andb_true_r, andb_true_iff. reflexivity.
Qed.

Lemma reuse_iff_targets_exist_witness :
  let env := example_env (λ p, String.prefix "gs://w/info" p) in
  let a := example_args false true in
  let fr := (add_variant_qc_jobs_frame env a example_batch).1 in
  let b' := (add_variant_qc_jobs_frame env a example_batch).2 in
  overwrite a = false
  ∧ (∃ J, stage_job fr b' StInfo = Some J
       ∧ (is_reused J = true
          ↔ file_exists env (join (work_bucket a) "info.ht") = true
            ∧ file_exists env (join (work_bucket a) "info-split.ht") = true)).
Proof.
  cbv zeta. split; [reflexivity |].
  apply (reuse_iff_targets_exist
           (example_env (λ p, String.prefix "gs://w/info" p))
           (example_args false true) example_batch).
  reflexivity.
Defined.

(** C5 as stated fails: with every artifact in place and [overwrite] unset,
    the info placeholder keeps an edge to the run-level upstream job 0, and
    the export-prepare placeholder an edge to the final-MT stage (job 8). *)
Lemma reused_stage_keeps_edges_counterexample :
  let env := example_env (λ _, true) in
  let a := example_args false true in
  let fr := (add_variant_qc_jobs_frame env a example_batch).1 in
  let b' := (add_variant_qc_jobs_frame env a example_batch).2 in
  (∃ J, stage_job fr b' StInfo = Some J
        ∧ is_reused J = true
        ∧ depends_on a = Some [0]
        ∧ job_dependencies J = {[0]}
        ∧ job_dependencies J ≠ ∅)
  ∧ (∃ J, stage_job fr b' StExportPrepare = Some J
          ∧ is_reused J = true
          ∧ stage_handle fr StFinalMt = Some 8
          ∧ job_dependencies J = {[8]}
          ∧ job_dependencies J ≠ ∅).
Proof.
  cbv zeta. split; eexists; (split; [vm_compute; reflexivity |]);
    (split; [reflexivity |]); (split; [reflexivity |]);
    (split; [vm_compute; reflexivity |]);
    intros H; apply (f_equal size) in H; vm_compute in H; discriminate H.
Qed.

(** C5, amended.  A placeholder carries exactly the edges attached after the
    if/else of its stage: none for the annotations, frequencies,
    RF-annotations, random-forest, RF-evaluation, RF-final-filter, AS-VQSR
    pipeline, load_vqsr, AS-VQSR-evaluation and final-MT stages; the run-level
    dependencies for the info stage; the pipeline, RF-annotations and info
    stages for the AS-VQSR final filter; the final-MT stage for export-prepare;
    and the export-prepare stage for each per-chromosome export. *)
Theorem reused_stage_edges env a b s J :
  let fr := (add_variant_qc_jobs_frame env a b).1 in
  let b' := (add_variant_qc_jobs_frame env a b).2 in
  stage_job fr b' s = Some J →
  is_reused J = true →
  job_dependencies J = reused_edges fr a s.
Proof.
  cbv zeta. rewrite stage_job_run, add_variant_qc_jobs_frame_run.
  unfold stage_node, variant_qc_frame, reused_edges. cbv zeta. cbn [fst].
  destruct s; destruct (run_rf a); try discriminate;
    try (destruct (chromosomes !! i) as [chrom |]; [| discriminate]);
    cbn [fmap option_fmap option_map branch rf_anno_job info_job final_mt_j
         final_ht_j];
    intros [= <-];
    unfold info_node, annotations_node, frequencies_node, rf_annotations_node,
      random_forest_node, vqsr_pipeline_node, final_mt_node, export_prepare_node,
      export_node, rf_evaluation_node, rf_final_filter_node, load_vqsr_node,
      vqsr_evaluation_node, vqsr_final_filter_node, gated, is_reused;
    cbv zeta;
    repeat match goal with
           | |- context [if ?c then _ else _] => destruct c
           end;
    unfold add_dependencies, command_node, reuse_node;
    cbn [job_action job_dependencies list_to_set];
    intros Hr; try discriminate Hr;
    rewrite ?(left_id_L ∅ (∪)), ?(right_id_L ∅ (∪)); reflexivity.
Qed.

Lemma reused_stage_edges_witness :
  let env := example_env (λ _, true) in
  let a := example_args false false in
  let fr := (add_variant_qc_jobs_frame env a example_batch).1 in
  let b' := (add_variant_qc_jobs_frame env a example_batch).2 in
  ∃ J, stage_job fr b' StVqsrFinalFilter = Some J
       ∧ is_reused J = true
       ∧ job_dependencies J = reused_edges fr a StVqsrFinalFilter.
Proof.
  cbv zeta. eexists. split; [vm_compute; reflexivity |].
  split; [reflexivity |].
  apply (reused_stage_edges (example_env (λ _, true)) (example_args false false)
           example_batch StVqsrFinalFilter).
  - vm_compute. reflexivity.
  - reflexivity.
Defined.

(** C6 as stated fails: with exactly one cutoff for each class (a bin cutoff
    for SNVs, a score cutoff for indels) and [aggregated_bin_ht] and [bin_id]
    left at their default [None], the checks do not pass: they raise the
    error of lines 89-94. *)
Lemma one_cutoff_per_class_counterexample :
  FinalFilter.generate_final_filter_ht_checks
    (Some 90%Z) None None (Some (1 # 2)%Q) None None
  = FinalFilter.ValueError FinalFilter.aggregated_missing_msg.
Proof. reflexivity. Qed.

(** C6, amended.  For each variant class: with both the bin cutoff and the
    score cutoff of the class supplied the checks raise a mutual-exclusion
    error; with neither supplied they raise an error; with exactly one
    supplied they raise neither of the two errors of that class.  With
    exactly one cutoff for each of the two classes the checks pass, unless a
    bin cutoff is among them and the aggregated table or the bin id is not
    supplied: then they raise the error of lines 89-94.  So the checks pass
    exactly when each class has exactly one cutoff and, if a bin cutoff is
    used, the aggregated table and the bin id are supplied. *)
Theorem cutoff_checks_per_class
    (snp_bin indel_bin : option Z) (snp_score indel_score : option FinalFilter.score)
    (aggregated_bin_ht : option FinalFilter.Table) (bin_id : option string)
    (c : VariantClass) :
  let r := FinalFilter.generate_final_filter_ht_checks snp_bin indel_bin snp_score indel_score
             aggregated_bin_ht bin_id in
  let bin := match c with
             | SNV => FinalFilter.is_not_None snp_bin
             | Indel => FinalFilter.is_not_None indel_bin
             end in
  let sc := match c with
            | SNV => FinalFilter.is_not_None snp_score
            | Indel => FinalFilter.is_not_None indel_score
            end in
  (bin = true ∧ sc = true → ∃ c', r = FinalFilter.ValueError (exclusive_msg c'))
  ∧ (bin = false ∧ sc = false →
     ∃ c', r = FinalFilter.ValueError (exclusive_msg c') ∨ r = FinalFilter.ValueError (missing_msg c'))
  ∧ (xorb bin sc = true →
     r ≠ FinalFilter.ValueError (exclusive_msg c) ∧ r ≠ FinalFilter.ValueError (missing_msg c))
  ∧ (r = FinalFilter.Proceed
     ↔ xorb (FinalFilter.is_not_None snp_bin) (FinalFilter.is_not_None snp_score) = true
       ∧ xorb (FinalFilter.is_not_None indel_bin) (FinalFilter.is_not_None indel_score) = true
       ∧ (FinalFilter.is_not_None snp_bin || FinalFilter.is_not_None indel_bin = true →
          FinalFilter.is_not_None aggregated_bin_ht = true ∧ FinalFilter.is_not_None bin_id = true))
  ∧ (xorb (FinalFilter.is_not_None snp_bin) (FinalFilter.is_not_None snp_score) = true
     ∧ xorb (FinalFilter.is_not_None indel_bin) (FinalFilter.is_not_None indel_score) = true →
     r = if (FinalFilter.is_not_None snp_bin || FinalFilter.is_not_None indel_bin)
            && (FinalFilter.is_None aggregated_bin_ht || FinalFilter.is_None bin_id)
         then FinalFilter.ValueError FinalFilter.aggregated_missing_msg
         else FinalFilter.Proceed).
Proof.
  cbv zeta.
  destruct snp_bin, indel_bin, snp_score, indel_score, aggregated_bin_ht, bin_id, c;
    cbn [FinalFilter.generate_final_filter_ht_checks FinalFilter.is_not_None FinalFilter.is_None negb andb orb xorb
         exclusive_msg missing_msg];
    (split; [| split; [| split; [| split; [split |]]]]).
  all: try (intros [H1 H2]; try discriminate H1; try discriminate H2; reflexivity).
  all: try (intros [Hb Hs]; try discriminate Hb; try discriminate Hs;
            first [ exists SNV; reflexivity
                  | exists Indel; reflexivity
                  | exists SNV; left; reflexivity
                  | exists SNV; right; reflexivity
                  | exists Indel; left; reflexivity
                  | exists Indel; right; reflexivity ]).
  all: try (intros Hx; try discriminate Hx;
            split; intros H; vm_compute in H; discriminate H).
  all: try (intros H; try discriminate H;
            split; [reflexivity |]; split; [reflexivity |];
            intros Hb; try discriminate Hb; split; reflexivity).
  all: intros (H1 & H2 & H3); try discriminate H1; try discriminate H2;
    try reflexivity; destruct (H3 eq_refl) as [Ha Hi];
    try discriminate Ha; discriminate Hi.
Qed.




(** C8 does not hold of the code.  [main] never reports a missing
    aggregated-bin table: whatever the store holds and whatever its
    arguments, it initialises Hail and then ends in [NameError] on
    [get_score_bins] (line 320), a name the module never binds.  It reaches
    neither the test of line 334 nor the [sys.exit] of line 335, and it
    builds and writes no final filter table. *)
Theorem missing_aggregated_bins_never_reported
    (w : FinalFilter.World) (args : FinalFilter.Args) :
  FinalFilter.main w args
  = ([FinalFilter.InitHail], FinalFilter.NameError "get_score_bins")
  ∧ (∀ msg, (FinalFilter.main w args).2
            ≠ FinalFilter.Ends (FinalFilter.SysExit msg))
  ∧ (FinalFilter.BuildFinalFilter ∉ (FinalFilter.main w args).1)
  ∧ (∀ p, FinalFilter.WriteFinalFilter p ∉ (FinalFilter.main w args).1).
Proof.
  rewrite main_ends_in_NameError. cbn [fst snd].
  split; [reflexivity |]. split; [intros msg H; discriminate H |].
  split; [| intros p]; intros Hin;
    apply list_elem_of_In in Hin; destruct Hin as [H | []]; discriminate H.
Qed.

(** The input of C8: the aggregated-bin table of the requested model is not
    in the store, and [main] ends in [NameError], not in [sys.exit]. *)
Lemma missing_aggregated_bins_never_reported_witness :
  FinalFilter.file_exists example_world
    (FinalFilter.score_bins_path example_world
       (FinalFilter.model_id example_script_args) true) = false
  ∧ FinalFilter.main example_world example_script_args
    = ([FinalFilter.InitHail], FinalFilter.NameError "get_score_bins").
Proof.
  split; [reflexivity |].
  apply (missing_aggregated_bins_never_reported example_world example_script_args).
Defined.

(** C9.  With [overwrite] unset, [add_rf_eval_jobs] decides the reuse of the
    RF evaluation stage on the per-variant score-bin table alone: when that
    table exists the stage is a placeholder with no command, also when the
    aggregated-bin table is missing.  [add_vqsr_eval_jobs] builds its
    evaluation stage with the command whenever either of its two bin tables
    is missing. *)
Theorem rf_evaluation_reuse_ignores_aggregate
    env cl mt isp rfr rfa fam freq mid wb d vcf vrfr vwb ab vj raj out ow b :
  let r := add_rf_eval_jobs_frame env cl mt isp rfr rfa fam freq mid wb ow d b in
  let v := add_vqsr_eval_jobs_frame env cl mt rfa isp vcf vrfr fam freq vwb ab ow
             vj raj out b in
  ow = false →
  (file_exists env (join wb "rf-score-bin.ht") = true →
   file_exists env (join wb "rf-score-agg-bin.ht") = false →
   ∃ J, jobs r.2 !! rf_eval_job r.1 = Some J
        ∧ is_reused J = true
        ∧ job_command J = None
        ∧ job_name J = "RF: evaluation [reuse]")
  ∧ (file_exists env (join vwb "vqsr-score-bin.ht") = false
     ∨ file_exists env (join vwb "vqsr-score-agg-bin.ht") = false →
     ∃ J, jobs v.2 !! vqsr_eval_job v.1 = Some J
          ∧ is_executed J = true
          ∧ job_command J
            = Some (vqsr_evaluation_cmd env mt rfa isp fam vrfr
                      (join vwb "vqsr-filters-split.ht") vwb
                      (join vwb "vqsr-score-bin.ht")
                      (join vwb "vqsr-score-agg-bin.ht"))
          ∧ job_name J = "AS-VQSR: evaluation").
Proof.
  cbv zeta. intros ->. split.
  - intros Hbin _.
    rewrite run_as_bind, (batch_as_appended b), add_rf_eval_jobs_frame_run.
    unfold ret. cbn [fst snd jobs rf_eval_job length app].
    rewrite lookup_app_add. cbn [lookup list_lookup].
    eexists. split; [reflexivity |].
    unfold rf_evaluation_node. rewrite Hbin. repeat split; reflexivity.
  - intros Hmiss.
    rewrite run_as_bind, (batch_as_appended b), add_vqsr_eval_jobs_frame_run.
    unfold ret. cbn [fst snd jobs vqsr_eval_job length app].
    rewrite lookup_app_add. cbn [lookup list_lookup].
    eexists. split; [reflexivity |].
    unfold vqsr_evaluation_node.
    destruct Hmiss as [-> | ->]; rewrite ?orb_true_r; repeat split; reflexivity.
Qed.

Lemma rf_evaluation_reuse_ignores_aggregate_witness :
  let env := example_env (λ p, String.eqb p "gs://w/rf/rf-score-bin.ht"
                               || String.eqb p "gs://w/vqsr/vqsr-score-bin.ht") in
  let r := add_rf_eval_jobs_frame env 0 "raw.mt" "is.ht" "rfr.ht" "rfa.ht" None
             "freq.ht" "rf_1234" "gs://w/rf" false None example_batch in
  file_exists env "gs://w/rf/rf-score-bin.ht" = true
  ∧ file_exists env "gs://w/rf/rf-score-agg-bin.ht" = false
  ∧ ∃ J, jobs r.2 !! rf_eval_job r.1 = Some J
         ∧ is_reused J = true
         ∧ job_command J = None
         ∧ job_name J = "RF: evaluation [reuse]".
Proof.
  cbv zeta. split; [reflexivity |]. split; [reflexivity |].
  apply (rf_evaluation_reuse_ignores_aggregate
           (example_env (λ p, String.eqb p "gs://w/rf/rf-score-bin.ht"
                              || String.eqb p "gs://w/vqsr/vqsr-score-bin.ht"))
           0 "raw.mt" "is.ht" "rfr.ht" "rfa.ht" None "freq.ht" "rf_1234"
           "gs://w/rf" None "out.vcf.gz" None "gs://w/vqsr" "gs://web/vqsr" 0 0
           "ff.ht" false example_batch); reflexivity.
Defined.

(** C10.  The construction is a function of its inputs and of the value
    [uuid.uuid4()] draws.  On the random-forest path two runs on the same
    inputs, store and batch whose draws differ in their first eight
    characters register different commands: for the random-forest stage when
    it is executed (overwrite, or rf-result.ht absent), and for the RF
    final-filter stage when it is executed. *)
Theorem rf_model_id_is_fresh store scripts fmt u1 u2 a b :
  let r1 := add_variant_qc_jobs_frame (mkEnv store u1 scripts fmt) a b in
  let r2 := add_variant_qc_jobs_frame (mkEnv store u2 scripts fmt) a b in
  run_rf a = true →
  String.substring 0 8 u1 ≠ String.substring 0 8 u2 →
  (overwrite a = true ∨ store (join (work_bucket a) "rf-result.ht") = false →
   ∃ c1 c2, stage_command r1.1 r1.2 StRandomForest = Some c1
            ∧ stage_command r2.1 r2.2 StRandomForest = Some c2
            ∧ c1 ≠ c2)
  ∧ (overwrite a = true
     ∨ store (join (join (work_bucket a) "rf") "final-filter.ht") = false →
     ∃ c1 c2, stage_command r1.1 r1.2 StRfFinalFilter = Some c1
              ∧ stage_command r2.1 r2.2 StRfFinalFilter = Some c2
              ∧ c1 ≠ c2).
Proof.
  cbv zeta. intros Hrf Hne. unfold stage_command.
  rewrite !stage_job_run. unfold stage_node. cbv zeta. rewrite Hrf.
  cbn [mbind option_bind].
  unfold random_forest_node, rf_final_filter_node, rf_result_ht_path, rf_bucket.
  cbn [file_exists].
  split; intros Hrun.
  - replace (overwrite a || negb (store (join (work_bucket a) "rf-result.ht")))
      with true by (destruct Hrun as [-> | ->]; rewrite ?orb_true_r; reflexivity).
    do 2 eexists. split; [reflexivity |]. split; [reflexivity |].
    unfold random_forest_cmd, script, rf_model_id. cbn [SCRIPTS_DIR uuid4].
    intros H. repeat (apply append_inj_l in H).
    apply append_inj_r, append_inj_l in H. exact (Hne H).
  - replace (overwrite a
             || negb (store (join (join (work_bucket a) "rf") "final-filter.ht")))
      with true by (destruct Hrun as [-> | ->]; rewrite ?orb_true_r; reflexivity).
    do 2 eexists. split; [reflexivity |]. split; [reflexivity |].
    unfold rf_final_filter_cmd, script, rf_model_id. cbn [SCRIPTS_DIR uuid4].
    intros H. repeat (apply append_inj_l in H).
    apply append_inj_r, append_inj_l in H. exact (Hne H).
Qed.

Lemma rf_model_id_is_fresh_witness :
  let store := λ _ : string, false in
  let u1 := "123e4567-e89b-42d3-a456-426614174000" in
  let u2 := "9b2f0c1a-7d3e-4f5a-8b6c-0123456789ab" in
  let a := example_args false true in
  let r1 := add_variant_qc_jobs_frame (mkEnv store u1 "scripts" example_format) a
              example_batch in
  let r2 := add_variant_qc_jobs_frame (mkEnv store u2 "scripts" example_format) a
              example_batch in
  ∃ c1 c2, stage_command r1.1 r1.2 StRandomForest = Some c1
           ∧ stage_command r2.1 r2.2 StRandomForest = Some c2
           ∧ c1 ≠ c2.
Proof.
  cbv zeta.
  apply (rf_model_id_is_fresh (λ _ : string, false) "scripts" example_format
           "123e4567-e89b-42d3-a456-426614174000"
           "9b2f0c1a-7d3e-4f5a-8b6c-0123456789ab" (example_args false true)
           example_batch).
  - reflexivity.
  - vm_compute. discriminate.
  - right. reflexivity.
Defined.

(** * Further properties

    Properties of the construction beyond the claims, and of the scripts the
    stages run. *)

Set Warnings "-clear-no-such-hyp".

(** ** The job graph *)

Ltac edge_cases :=
  node_cases; cbn [or_nil list_to_set]; set_unfold; intuition (auto; lia).

Lemma chain_node_edges env a n c k J d :
  chain_nodes env a n c !! k = Some J →
  d ∈ job_dependencies J →
  d ∈ or_nil (depends_on a) ∨ (n ≤ d < n + k)%nat.
Proof.
  unfold chain_nodes, common_nodes, rf_branch_nodes, vqsr_branch_nodes.
  destruct (run_rf a); cbn [app];
    do 10 (destruct k as [| k]; [intros [= <-]; edge_cases |]); discriminate.
Qed.

(** An edge of an appended job points to a run-level dependency or to a job
    appended earlier by the same call. *)
Lemma appended_job_edges env a b h J d :
  (length (jobs b) ≤ h)%nat →
  jobs (add_variant_qc_jobs env a b).2 !! h = Some J →
  d ∈ job_dependencies J →
  d ∈ or_nil (depends_on a) ∨ (length (jobs b) ≤ d < h)%nat.
Proof.
  intros Hh. rewrite add_variant_qc_jobs_run. cbn [snd]. rewrite jobs_run.
  replace h with (length (jobs b) + (h - length (jobs b))) at 1 by lia.
  rewrite lookup_app_add.
  destruct (le_lt_dec (chain_length a) (h - length (jobs b))) as [Hk | Hk].
  - rewrite lookup_app_r by (rewrite chain_nodes_length; exact Hk).
    rewrite lookup_map. intros HJ.
    destruct (chromosomes !! _) as [chrom |]; [| discriminate].
    injection HJ as <-. rewrite export_node_dependencies.
    assert (0 < chain_length a) by (unfold chain_length; destruct (run_rf a); lia).
    set_unfold. intros ->. right. lia.
  - rewrite lookup_app_l by (rewrite chain_nodes_length; exact Hk).
    intros HJ Hd.
    destruct (chain_node_edges env a _ _ _ J d HJ Hd) as [? | ?]; [left; assumption |].
    right. lia.
Qed.

(** The jobs the batch held are where they were. *)
Lemma caller_jobs_kept env a b h :
  (h < length (jobs b))%nat →
  jobs (add_variant_qc_jobs env a b).2 !! h = jobs b !! h.
Proof.
  intros Hh. rewrite add_variant_qc_jobs_run. cbn [snd]. rewrite jobs_run.
  apply lookup_app_l. exact Hh.
Qed.

(** From an appended job only jobs allocated before it are reached; from a
    job of the caller only jobs of the caller, along edges the caller's batch
    had already. *)
Lemma runs_after_descends env a b h d :
  (∀ d, d ∈ or_nil (depends_on a) → (d < length (jobs b))%nat) →
  (∀ i J d, jobs b !! i = Some J → d ∈ job_dependencies J →
            (d < length (jobs b))%nat) →
  runs_after (add_variant_qc_jobs env a b).2 h d →
  ((length (jobs b) ≤ h)%nat → (d < h)%nat)
  ∧ ((h < length (jobs b))%nat → (d < length (jobs b))%nat ∧ runs_after b h d).
Proof.
  intros Hup Hclosed Hra.
  induction Hra as [h d J HJ Hd | h m d _ [IH1 IH1'] _ [IH2 IH2']].
  - split.
    + intros Hh.
      destruct (appended_job_edges env a b h J d Hh HJ Hd) as [Hin | ?]; [| lia].
      specialize (Hup d Hin). lia.
    + intros Hh. rewrite caller_jobs_kept in HJ by exact Hh.
      split; [exact (Hclosed h J d HJ Hd) |].
      exact (runs_after_edge b h d J HJ Hd).
  - split.
    + intros Hh. specialize (IH1 Hh).
      destruct (le_lt_dec (length (jobs b)) m) as [Hm | Hm].
      * specialize (IH2 Hm). lia.
      * destruct (IH2' Hm) as [? _]. lia.
    + intros Hh. destruct (IH1' Hh) as [Hm Hhm].
      destruct (IH2' Hm) as [Hd Hmd].
      split; [exact Hd |]. exact (runs_after_trans b h m d Hhm Hmd).
Qed.

(** X1.  Let the run-level dependencies be jobs of the caller's batch, and
    let the jobs of that batch depend only on jobs of that batch.  Then every
    dependency edge of a job appended by [add_variant_qc_jobs] points to a
    job allocated before it: to a run-level dependency or to a job appended
    earlier by the same call.  Every job an appended job runs after, directly
    or through other jobs, was allocated before it, so no cycle of
    dependencies passes through an appended job; and where the caller's
    graph has no cycle, the returned graph has none.  The recalibration
    sub-pipeline stands in the graph as the one node [add_vqsr_jobs]
    returns. *)
Theorem edges_point_backwards env a b :
  let b' := (add_variant_qc_jobs env a b).2 in
  (∀ d, d ∈ or_nil (depends_on a) → (d < length (jobs b))%nat) →
  (∀ i J d, jobs b !! i = Some J → d ∈ job_dependencies J →
            (d < length (jobs b))%nat) →
  (∀ h J d, (length (jobs b) ≤ h)%nat → jobs b' !! h = Some J →
            d ∈ job_dependencies J →
            (d < h)%nat
            ∧ (d ∈ or_nil (depends_on a) ∨ (length (jobs b) ≤ d)%nat))
  ∧ (∀ h d, (length (jobs b) ≤ h)%nat → runs_after b' h d → (d < h)%nat)
  ∧ (∀ h, (length (jobs b) ≤ h)%nat → ¬ runs_after b' h h)
  ∧ ((∀ h, ¬ runs_after b h h) → ∀ h, ¬ runs_after b' h h).
Proof.
  cbv zeta. intros Hup Hclosed.
  assert (Hdesc : ∀ h d, (length (jobs b) ≤ h)%nat →
                         runs_after (add_variant_qc_jobs env a b).2 h d →
                         (d < h)%nat).
  { intros h d Hh Hra.
    exact (proj1 (runs_after_descends env a b h d Hup Hclosed Hra) Hh). }
  split; [| split; [exact Hdesc | split]].
  - intros h J d Hh HJ Hd.
    destruct (appended_job_edges env a b h J d Hh HJ Hd) as [Hin | ?].
    + specialize (Hup d Hin). split; [lia | left; exact Hin].
    + split; [lia | right; lia].
  - intros h Hh Hra. specialize (Hdesc h h Hh Hra). lia.
  - intros Hacyclic h Hra.
    destruct (le_lt_dec (length (jobs b)) h) as [Hh | Hh].
    + specialize (Hdesc h h Hh Hra). lia.
    + apply (Hacyclic h).
      exact (proj2 (proj2 (runs_after_descends env a b h h Hup Hclosed Hra) Hh)).
Qed.

Lemma edges_point_backwards_witness :
  let env := example_env (λ _, false) in
  let a := example_args false true in
  let b' := (add_variant_qc_jobs env a example_batch).2 in
  (∃ J, jobs b' !! 6 = Some J ∧ 5 ∈ job_dependencies J)
  ∧ ¬ runs_after b' 6 6
  ∧ ∀ h, ¬ runs_after b' h h.
Proof.
  cbv zeta.
  assert (Hup : ∀ d, d ∈ or_nil (depends_on (example_args false true)) →
                     (d < length (jobs example_batch))%nat).
  { intros d Hd. apply list_elem_of_singleton in Hd. subst d. vm_compute. lia. }
  assert (Hclosed : ∀ i J d, jobs example_batch !! i = Some J →
                             d ∈ job_dependencies J →
                             (d < length (jobs example_batch))%nat).
  { intros [| i] J d HJ Hd; [| discriminate HJ].
    injection HJ as <-. apply elem_of_empty in Hd. destruct Hd. }
  destruct (edges_point_backwards (example_env (λ _, false))
              (example_args false true) example_batch Hup Hclosed)
    as (_ & _ & Hnew & Hall).
  split; [| split].
  - eexists. split; [vm_compute; reflexivity |].
    apply (bool_decide_unpack _). vm_compute. exact I.
  - apply Hnew. vm_compute. lia.
  - apply Hall. intros h Hra.
    assert (Hno : ∀ h d, ¬ runs_after example_batch h d).
    { clear. intros h d Hra.
      induction Hra as [[| h] d J HJ Hd | h m d _ IH _ _]; [| discriminate HJ | exact IH].
      injection HJ as <-. apply elem_of_empty in Hd. destruct Hd. }
    exact (Hno h h Hra).
Defined.

(** Where [add_vqsr_jobs] is not called, no node of the graph is a
    sub-pipeline node. *)
Lemma nodes_without_sub_pipeline env a n c :
  calls_add_vqsr_jobs env a = false →
  Forall (λ J, is_sub_pipeline J = false) (variant_qc_nodes env a n c).
Proof.
  unfold calls_add_vqsr_jobs. intros Hcall.
  unfold variant_qc_nodes, common_nodes, rf_branch_nodes, vqsr_branch_nodes,
    export_tail_nodes.
  rewrite chromosomes_eq.
  destruct (run_rf a); cbn [app map negb andb] in *;
    repeat (apply Forall_cons; split;
            [node_cases; unfold is_sub_pipeline, add_dependencies;
             cbn [job_action]; congruence |]);
    constructor.
Qed.

(** X2.  Where [add_variant_qc_jobs] does not call the recalibration
    sub-pipeline (random-forest branch, or recalibration branch with the
    recalibrated VCF reused), it only appends: the jobs and clusters already
    in the batch stay as they are, in place; it adds 33 jobs with the
    random-forest branch and 34 with the recalibration branch, all of them
    registered by variant_qc.py itself, and four clusters, whatever else the
    store holds. *)
Theorem appends_jobs_and_clusters env a b :
  let b' := (add_variant_qc_jobs env a b).2 in
  calls_add_vqsr_jobs env a = false →
  (∃ added, jobs b' = jobs b ++ added
            ∧ length added = (if run_rf a then 33 else 34)
            ∧ Forall (λ J, is_sub_pipeline J = false) added)
  ∧ (∃ provisioned, clusters b' = clusters b ++ provisioned
                    ∧ length provisioned = 4).
Proof.
  cbv zeta. intros Hcall.
  rewrite add_variant_qc_jobs_run, add_variant_qc_jobs_frame_run.
  cbn [snd jobs clusters]. split; eexists; (split; [reflexivity |]).
  - split; [| apply nodes_without_sub_pipeline, Hcall].
    unfold variant_qc_nodes. destruct (run_rf a); reflexivity.
  - reflexivity.
Qed.

Lemma appends_jobs_and_clusters_witness :
  let env := example_env (λ _, true) in
  let a := example_args false false in
  let b' := (add_variant_qc_jobs env a example_batch).2 in
  (∃ added, jobs b' = jobs example_batch ++ added
            ∧ length added = 34
            ∧ Forall (λ J, is_sub_pipeline J = false) added)
  ∧ (∃ provisioned, clusters b' = clusters example_batch ++ provisioned
                    ∧ length provisioned = 4).
Proof.
  cbv zeta.
  apply (appends_jobs_and_clusters (example_env (λ _, true))
           (example_args false false) example_batch).
  reflexivity.
Defined.

(** X3.  An executed stage is registered on a cluster provisioned by the
    same call, never on one the batch already held: the info stage on
    [VarQC 1], the annotations stage on [VarQC 2], the frequencies and
    RF-annotations stages on [VarQC 3], and every later stage on the cluster
    of the branch taken ([RF] or [VQSR eval]). *)
Theorem stages_run_on_own_clusters env a b s J cl cmd :
  let fr := (add_variant_qc_jobs_frame env a b).1 in
  let b' := (add_variant_qc_jobs_frame env a b).2 in
  stage_job fr b' s = Some J →
  job_action J = Command cl cmd →
  (length (clusters b) ≤ cl)%nat
  ∧ ∃ C, clusters b' !! cl = Some C ∧ cluster_name C = stage_cluster_name a s.
Proof.
  cbv zeta. rewrite stage_job_run, add_variant_qc_jobs_frame_run.
  cbn [snd clusters]. unfold stage_node, variant_qc_clusters, stage_cluster_name.
  cbv zeta.
  destruct s; destruct (run_rf a); try discriminate;
    try (destruct (chromosomes !! i) as [chrom |]; [| discriminate]);
    cbn [fmap option_fmap option_map]; intros [= <-];
    node_cases; intros [= <- <-]; (split; [lia |]);
    rewrite lookup_app_add; eexists; (split; [reflexivity |]); reflexivity.
Qed.

Lemma stages_run_on_own_clusters_witness :
  let env := example_env (λ _, false) in
  let a := example_args false false in
  let fr := (add_variant_qc_jobs_frame env a example_batch).1 in
  let b' := (add_variant_qc_jobs_frame env a example_batch).2 in
  ∃ J cl cmd,
    stage_job fr b' StFinalMt = Some J
    ∧ job_action J = Command cl cmd
    ∧ (length (clusters example_batch) ≤ cl)%nat
    ∧ ∃ C, clusters b' !! cl = Some C
           ∧ cluster_name C = stage_cluster_name a StFinalMt.
Proof.
  cbv zeta. eexists _, _, _. split; [vm_compute; reflexivity |].
  split; [reflexivity |].
  eapply (stages_run_on_own_clusters (example_env (λ _, false))
            (example_args false false) example_batch StFinalMt).
  - vm_compute. reflexivity.
  - reflexivity.
Defined.

Lemma stage_base_names env a n c :
  map stage_base_name (variant_qc_nodes env a n c)
  = (["Var QC: generate info"; "Var QC: generate annotations";
      "Var QC: generate frequencies"; "Var QC: create RF annotations"]
     ++ (if run_rf a
         then ["Random forest"; "RF: evaluation"; "RF: final filter"]
         else ["AS-VQSR"; "AS-VQSR: load_vqsr"; "AS-VQSR: evaluation";
               "AS-VQSR: final filter"])
     ++ ["Making final MT"; "Making final VCF: prepare HT"]
     ++ map (λ chrom, "Making final VCF: HT to VCF for chr" +:+ chrom) chromosomes).
Proof.
  unfold variant_qc_nodes, common_nodes, rf_branch_nodes, vqsr_branch_nodes,
    export_tail_nodes.
  rewrite chromosomes_eq.
  destruct (run_rf a); cbn [app map];
    repeat (apply (f_equal2 cons); [node_cases; reflexivity |]);
    reflexivity.
Qed.

(** X4.  The jobs that one call of [add_variant_qc_jobs] registers itself
    (all appended jobs but those of the recalibration sub-pipeline) have
    pairwise distinct names, also when the suffix of the placeholders is left
    out: among them a name identifies its stage. *)
Theorem appended_job_names_distinct env a b :
  let added := new_jobs b (add_variant_qc_jobs env a b).2 in
  let own := filter (λ J, is_sub_pipeline J = false) added in
  NoDup (map job_name own) ∧ NoDup (map stage_base_name own).
Proof.
  cbv zeta. rewrite add_variant_qc_jobs_run. cbn [snd]. rewrite new_jobs_run.
  assert (H : NoDup (map stage_base_name
                       (variant_qc_nodes env a (length (jobs b))
                          (length (clusters b))))).
  { rewrite stage_base_names, chromosomes_eq.
    destruct (run_rf a); apply (bool_decide_unpack _); vm_compute; exact I. }
  assert (H' : NoDup (map stage_base_name
                        (filter (λ J, is_sub_pipeline J = false)
                           (variant_qc_nodes env a (length (jobs b))
                              (length (clusters b)))))).
  { refine (sublist_NoDup _ _ H _).
    apply (fmap_sublist stage_base_name), sublist_filter. }
  split; [| exact H'].
  apply (NoDup_fmap_1 (λ s, stage_base_name (mkJob s Placeholder ∅))).
  rewrite <- list_fmap_compose. exact H'.
Qed.

Lemma info_node_run_level_edges env a cl d :
  d ∈ or_nil (depends_on a) → d ∈ job_dependencies (info_node env a cl).
Proof.
  unfold info_node, gated.
  destruct (depends_on a) as [[| x xs] |]; cbn [or_nil truthy_list];
    try (intros Hd; inversion Hd; fail).
  intros Hd. unfold add_dependencies. cbn [job_dependencies].
  apply elem_of_union_r, elem_of_list_to_set, Hd.
Qed.

(** An edge of a chain node that is executed. *)
Ltac executed_edge Hex k d :=
  let HJ := fresh "HJ" in
  eapply (runs_after_edge _ (_ + k) d);
  [ cbn [jobs]; rewrite lookup_app_add; reflexivity
  | match goal with
    | |- _ ∈ job_dependencies ?J =>
        assert (HJ : is_executed J = true)
          by (apply (Hex k); reflexivity);
        revert HJ; unfold is_executed, is_reused; node_cases;
        cbn [negb list_to_set or_nil]; try discriminate; intros _;
        set_unfold; intuition (auto; lia)
    end ].

(** X5.  When every appended stage is executed (as on an empty store), each
    export job depends, through the chain of stages, on the info, the
    annotations and the frequencies job and on every run-level dependency:
    no export can start before all of them are done. *)
Theorem exports_run_after_roots env a b h :
  let fr := (add_variant_qc_jobs_frame env a b).1 in
  let b' := (add_variant_qc_jobs env a b).2 in
  Forall (λ J, is_executed J = true) (new_jobs b b') →
  h ∈ (add_variant_qc_jobs env a b).1 →
  runs_after b' h (info_job fr)
  ∧ runs_after b' h (var_qc_anno_job fr)
  ∧ runs_after b' h (freq_job fr)
  ∧ ∀ d, d ∈ or_nil (depends_on a) → runs_after b' h d.
Proof.
  cbv zeta. rewrite add_variant_qc_jobs_run. cbn [fst snd].
  rewrite new_jobs_run, export_jobs_run, Forall_lookup.
  intros Hex Hh. apply elem_of_seq in Hh.
  assert (Hprep : runs_after (add_variant_qc_jobs_frame env a b).2 h
                    (length (jobs b) + (chain_length a - 1))).
  { destruct (lookup_lt_is_Some_2 chromosomes (h - length (jobs b) - chain_length a))
      as [chrom Hc]; [lia |].
    eapply runs_after_edge.
    - rewrite jobs_run.
      replace h with (length (jobs b)
                      + (chain_length a + (h - length (jobs b) - chain_length a)))
        at 1 by lia.
      rewrite lookup_app_add, lookup_app_r by (rewrite chain_nodes_length; lia).
      rewrite chain_nodes_length, lookup_map.
      replace (chain_length a + (h - length (jobs b) - chain_length a)
               - chain_length a)
        with (h - length (jobs b) - chain_length a) by lia.
      rewrite Hc. reflexivity.
    - rewrite export_node_dependencies. set_unfold. reflexivity. }
  revert Hprep. rewrite add_variant_qc_jobs_frame_run. cbn [fst snd].
  revert Hex. unfold variant_qc_nodes, variant_qc_frame, chain_length,
    common_nodes, rf_branch_nodes, vqsr_branch_nodes, export_tail_nodes.
  destruct (run_rf a); cbn [app Nat.sub info_job var_qc_anno_job freq_job];
    intros Hex Hprep.
  - match type of Hprep with
    | runs_after ?B _ _ =>
        assert (H3 : ∀ d, runs_after B (length (jobs b) + 3) d → runs_after B h d)
    end.
    { intros d Hd. eapply runs_after_trans; [exact Hprep |].
      eapply runs_after_trans; [executed_edge Hex 8 (length (jobs b) + 7) |].
      eapply runs_after_trans; [executed_edge Hex 7 (length (jobs b) + 6) |].
      eapply runs_after_trans; [executed_edge Hex 6 (length (jobs b) + 5) |].
      eapply runs_after_trans; [executed_edge Hex 5 (length (jobs b) + 4) |].
      eapply runs_after_trans; [executed_edge Hex 4 (length (jobs b) + 3) |].
      exact Hd. }
    match type of Hprep with
    | runs_after ?B _ _ =>
        assert (H0 : runs_after B h (length (jobs b) + 0))
          by (apply H3; executed_edge Hex 3 (length (jobs b) + 0))
    end.
    split; [exact H0 |].
    split; [apply H3; executed_edge Hex 3 (length (jobs b) + 1) |].
    split; [apply H3; executed_edge Hex 3 (length (jobs b) + 2) |].
    intros d Hd. eapply runs_after_trans; [exact H0 |].
    eapply (runs_after_edge _ (_ + 0) d);
      [cbn [jobs]; rewrite lookup_app_add; reflexivity |].
    apply info_node_run_level_edges, Hd.
  - match type of Hprep with
    | runs_after ?B _ _ =>
        assert (H7 : ∀ d, runs_after B (length (jobs b) + 7) d → runs_after B h d)
    end.
    { intros d Hd. eapply runs_after_trans; [exact Hprep |].
      eapply runs_after_trans; [executed_edge Hex 9 (length (jobs b) + 8) |].
      eapply runs_after_trans; [executed_edge Hex 8 (length (jobs b) + 7) |].
      exact Hd. }
    match type of Hprep with
    | runs_after ?B _ _ =>
        assert (H0 : runs_after B h (length (jobs b) + 0))
          by (apply H7; executed_edge Hex 7 (length (jobs b) + 0));
        assert (H3 : ∀ d, runs_after B (length (jobs b) + 3) d → runs_after B h d)
    end.
    { intros d Hd. apply H7.
      eapply runs_after_trans; [executed_edge Hex 7 (length (jobs b) + 3) |].
      exact Hd. }
    split; [exact H0 |].
    split; [apply H3; executed_edge Hex 3 (length (jobs b) + 1) |].
    split; [apply H3; executed_edge Hex 3 (length (jobs b) + 2) |].
    intros d Hd. eapply runs_after_trans; [exact H0 |].
    eapply (runs_after_edge _ (_ + 0) d);
      [cbn [jobs]; rewrite lookup_app_add; reflexivity |].
    apply info_node_run_level_edges, Hd.
Qed.

Lemma exports_run_after_roots_witness :
  let env := example_env (λ _, false) in
  let a := example_args false true in
  let fr := (add_variant_qc_jobs_frame env a example_batch).1 in
  let b' := (add_variant_qc_jobs env a example_batch).2 in
  Forall (λ J, is_executed J = true) (new_jobs example_batch b')
  ∧ 10 ∈ (add_variant_qc_jobs env a example_batch).1
  ∧ runs_after b' 10 (info_job fr)
  ∧ runs_after b' 10 (var_qc_anno_job fr)
  ∧ runs_after b' 10 (freq_job fr)
  ∧ ∀ d, d ∈ or_nil (depends_on a) → runs_after b' 10 d.
Proof.
  cbv zeta.
  assert (Hex : Forall (λ J, is_executed J = true)
                  (new_jobs example_batch
                     (add_variant_qc_jobs (example_env (λ _, false))
                        (example_args false true) example_batch).2))
    by (apply (bool_decide_unpack _); vm_compute; exact I).
  assert (Hh : 10 ∈ (add_variant_qc_jobs (example_env (λ _, false))
                       (example_args false true) example_batch).1)
    by (apply (bool_decide_unpack _); vm_compute; exact I).
  split; [exact Hex |]. split; [exact Hh |].
  exact (exports_run_after_roots (example_env (λ _, false))
           (example_args false true) example_batch 10 Hex Hh).
Defined.

(** ** Python strings *)

Lemma append_cons (c : ascii) (x y : string) :
  String c x +:+ y = String c (x +:+ y).
Proof. reflexivity. Qed.

Lemma append_nil_l (y : string) : "" +:+ y = y.
Proof. reflexivity. Qed.

Lemma append_nil_r (x : string) : x +:+ "" = x.
Proof.
  induction x as [| c x IH]; [reflexivity |]. rewrite append_cons, IH. reflexivity.
Qed.

Lemma append_assoc (x y z : string) : (x +:+ y) +:+ z = x +:+ (y +:+ z).
Proof.
  induction x as [| c x IH]; [reflexivity |]. rewrite !append_cons, IH. reflexivity.
Qed.

Lemma contains_char_app (ch : ascii) (x y : string) :
  contains_char ch (x +:+ y) = contains_char ch x || contains_char ch y.
Proof.
  induction x as [| c x IH]; [reflexivity |].
  rewrite append_cons. cbn [contains_char]. rewrite IH, orb_assoc. reflexivity.
Qed.

Lemma prefix_app (p s : string) :
  String.prefix p s = true → ∃ r, s = p +:+ r.
Proof.
  revert s. induction p as [| c p IH]; intros s H.
  - exists s. reflexivity.
  - destruct s as [| c' s]; [discriminate |]. cbn [String.prefix] in H.
    destruct (Ascii.ascii_dec c c') as [-> |]; [| discriminate].
    destruct (IH s H) as [r ->]. exists r. reflexivity.
Qed.

Lemma prefix_single (c c' : ascii) (s : string) :
  String.prefix (String c "") (String c' s) = Ascii.eqb c' c.
Proof.
  cbn [String.prefix]. destruct (Ascii.ascii_dec c c') as [-> | Hne].
  - rewrite Ascii.eqb_refl. destruct s; reflexivity.
  - symmetry. apply Ascii.eqb_neq. congruence.
Qed.

(** No piece of a split on one character holds that character. *)
Lemma str_split_from_char (ch : ascii) : ∀ s cur,
  contains_char ch cur = false →
  Forall (λ p, contains_char ch p = false) (str_split_from (String ch "") 0 cur s).
Proof.
  induction s as [| c s IH]; intros cur Hcur.
  - repeat constructor. exact Hcur.
  - cbn [str_split_from]. rewrite prefix_single.
    destruct (Ascii.eqb c ch) eqn:Hc.
    + cbn [String.length Nat.sub]. constructor; [exact Hcur |].
      apply IH. reflexivity.
    + apply IH. rewrite contains_char_app. cbn [contains_char].
      rewrite Hcur, Hc. reflexivity.
Qed.

Lemma str_split_head_char (ch : ascii) (s : string) :
  contains_char ch (default "" (head (str_split (String ch "") s))) = false.
Proof.
  pose proof (str_split_from_char ch s "" eq_refl) as H.
  unfold str_split. destruct (str_split_from _ 0 "" s) as [| p ps]; [reflexivity |].
  inversion H. assumption.
Qed.

(** Replacing a character removes it, when the replacement lacks it. *)
Lemma str_replace_char (ch : ascii) (new : string) :
  contains_char ch new = false →
  ∀ s, contains_char ch (str_replace (String ch "") new s) = false.
Proof.
  intros Hnew. unfold str_replace. induction s as [| c s IH]; [reflexivity |].
  cbn [str_replace_from]. rewrite prefix_single.
  destruct (Ascii.eqb c ch) eqn:Hc.
  - cbn [String.length Nat.sub]. rewrite contains_char_app, Hnew, IH. reflexivity.
  - cbn [contains_char]. rewrite Hc, IH. reflexivity.
Qed.

(** A string without the first character of [old] holds no [old]. *)
Lemma str_replace_absent (ch : ascii) (old new : string) :
  ∀ s, contains_char ch s = false → str_replace (String ch old) new s = s.
Proof.
  unfold str_replace. induction s as [| c s IH]; [reflexivity |].
  cbn [contains_char str_replace_from]. intros H.
  apply orb_false_elim in H as [Hc Hs].
  destruct (String.prefix (String ch old) (String c s)) eqn:Hp.
  - apply prefix_app in Hp as [r [= -> _]].
    rewrite Ascii.eqb_refl in Hc. discriminate.
  - rewrite IH by exact Hs. reflexivity.
Qed.

Lemma str_split_from_skip sep cur : ∀ x rest,
  str_split_from sep (String.length x) cur (x +:+ rest)
  = str_split_from sep 0 cur rest.
Proof.
  induction x as [| c x IH]; intros rest.
  - destruct rest; reflexivity.
  - rewrite append_cons. cbn [String.length str_split_from]. apply IH.
Qed.

Lemma str_join_cons sep p ps :
  ps ≠ [] → str_join sep (p :: ps) = p +:+ sep +:+ str_join sep ps.
Proof. destruct ps; [congruence | reflexivity]. Qed.

Lemma str_split_from_nonempty sep k cur s : str_split_from sep k cur s ≠ [].
Proof.
  revert k cur. induction s as [| c s IH]; intros k cur; cbn [str_split_from];
    [discriminate |].
  destruct k; [| apply IH]. destruct (String.prefix sep _); [discriminate | apply IH].
Qed.

Lemma str_split_from_join sep : sep ≠ "" → ∀ n s cur,
  (String.length s ≤ n)%nat →
  str_join sep (str_split_from sep 0 cur s) = cur +:+ s.
Proof.
  intros Hsep. induction n as [| n IH]; intros s cur Hn.
  - destruct s; [symmetry; apply append_nil_r | cbn [String.length] in Hn; lia].
  - destruct s as [| c s]; [symmetry; apply append_nil_r |].
    cbn [str_split_from]. destruct (String.prefix sep (String c s)) eqn:Hp.
    + apply prefix_app in Hp as [r Hr].
      destruct sep as [| c' sep]; [congruence |].
      rewrite append_cons in Hr. injection Hr as <- ->.
      cbn [String.length Nat.sub]. rewrite Nat.sub_0_r, str_split_from_skip.
      rewrite str_join_cons by apply str_split_from_nonempty.
      rewrite IH.
      * rewrite append_nil_l, !append_cons. reflexivity.
      * cbn [String.length] in Hn. rewrite string_length_append in Hn. lia.
    + rewrite IH by (cbn [String.length] in Hn; lia).
      rewrite append_assoc. reflexivity.
Qed.

(** Joining the pieces of a split with the separator gives the string
    back. *)
Lemma str_split_join sep s : sep ≠ "" → str_join sep (str_split sep s) = s.
Proof. intros H. apply (str_split_from_join sep H (String.length s)). lia. Qed.

(** ** scripts/release_vcf_prepare_ht.py *)

Section ReleaseVcfFacts.

Import ReleaseVcf.

Variable COHORT : string.

Lemma dom_dict_update (d : gmap string Expr) (items : list (string * Expr)) :
  dom (dict_update d items) = dom d ∪ list_to_set (map fst items).
Proof.
  unfold dict_update. revert d. induction items as [| [k v] items IH]; intros d.
  - cbn. set_solver.
  - cbn [foldl map list_to_set fst snd]. rewrite IH, dom_insert_L. set_solver.
Qed.

(** What the loop over the frequency index leaves. *)
Lemma unfurl_freq_spec prefix freq es : ∀ items d rem d' rem',
  unfurl_freq prefix freq (Some es) items d rem = Return (d', rem') →
  dom d ⊆ dom d'
  ∧ (rem ⊆ dom d → rem' ⊆ dom d')
  ∧ ∀ key, key ∈ rem' ↔
      key ∈ rem
      ∨ ∃ k i, (k, i) ∈ items
               ∧ default "" (head (str_split "-" k)) ∈ es
               ∧ key ∈ map fst (freq_combo_dict prefix freq k i).
Proof.
  induction items as [| [k i] items IH]; intros d rem d' rem'.
  - intros [= <- <-]. split; [done |]. split; [done |].
    intros key. split; [auto |]. intros [H | (k & i & H & _)]; [done |].
    inversion H.
  - cbn [unfurl_freq]. intros H. apply IH in H as (Hd & Hsub & Hrem).
    rewrite dom_dict_update in Hd, Hsub.
    split; [set_solver |]. split.
    + intros Hr. apply Hsub. case_bool_decide; set_solver.
    + intros key. rewrite Hrem. split.
      * intros [Hk | (k' & i' & Hin & Hes & Hk)].
        -- case_bool_decide as Hdec; [| left; exact Hk].
           apply elem_of_union in Hk as [Hk | Hk]; [left; exact Hk |].
           right. exists k, i. split; [left |]. split; [exact Hdec |].
           apply elem_of_list_to_set in Hk. exact Hk.
        -- right. exists k', i'. split; [right; exact Hin | auto].
      * intros [Hk | (k' & i' & Hin & Hes & Hk)].
        -- left. case_bool_decide; set_solver.
        -- apply elem_of_cons in Hin as [[= -> ->] | Hin].
           ++ left. rewrite bool_decide_eq_true_2 by exact Hes.
              apply elem_of_union_r, elem_of_list_to_set, Hk.
           ++ right. exists k', i'. auto.
Qed.

Lemma dom_unfurl_faf prefix faf items (d : gmap string Expr) :
  dom d ⊆ dom (unfurl_faf prefix faf items d).
Proof.
  unfold unfurl_faf. revert d. induction items as [| [k i] items IH]; intros d.
  - done.
  - cbn [foldl]. etrans; [| apply IH]. rewrite dom_dict_update. set_solver.
Qed.

(** A call that returns has run the loop over the frequency index of its
    mode to the end, and every field the loop set is in the struct. *)
Lemma unfurl_returns t fr sr ffs es d rem :
  unfurl_nested_annotations COHORT t fr sr ffs es = Return (d, rem) →
  ∃ d0,
    unfurl_freq (if ffs then COHORT +:+ "-" else "")
      (if sr then "hgdp_tgp_freq"
       else (if ffs then COHORT +:+ "_" else "") +:+ "freq")
      es
      (index_dict t
         (if sr then "hgdp_tgp_freq_index_dict"
          else (if ffs then COHORT +:+ "_" else "") +:+ "freq_index_dict"))
      ∅ ∅ = Return (d0, rem)
    ∧ dom d0 ⊆ dom d.
Proof.
  unfold unfurl_nested_annotations.
  destruct (negb _); [discriminate |]. cbv zeta.
  destruct (unfurl_freq _ _ es _ ∅ ∅) as [e' | [d1 rem1]] eqn:Hfreq;
    [discriminate |].
  intros H. exists d1.
  assert (Hd : dom d1 ⊆ dom d ∧ rem1 = rem).
  { destruct fr, sr, ffs; cbn [orb andb] in H; try discriminate H;
      injection H as <- <-; (split; [| reflexivity]);
      try destruct (has_age_hists t);
      repeat (etrans; [| first [apply dom_insert_subseteq | apply dom_unfurl_faf]]);
      done. }
  destruct Hd as [Hd <-]. split; [| exact Hd].
  rewrite <- Hfreq. destruct sr, ffs; reflexivity.
Qed.

(** X6.  [unfurl_nested_annotations] raises the ValueError of its mode check
    exactly when the three mode flags are not one [True] and two [False];
    with the defaults ([full_release=True]) a caller that sets
    [subset_release] or [full_for_subset] has to clear [full_release]. *)
Theorem unfurl_mode_check t fr sr ffs es :
  unfurl_nested_annotations COHORT t fr sr ffs es = Raise (ValueError mode_msg)
  ↔ ¬ ((fr = true ∧ sr = false ∧ ffs = false)
       ∨ (fr = false ∧ sr = true ∧ ffs = false)
       ∨ (fr = false ∧ sr = false ∧ ffs = true)).
Proof.
  unfold unfurl_nested_annotations. split.
  - intros H Hone.
    destruct Hone as [(-> & -> & ->) | [(-> & -> & ->) | (-> & -> & ->)]];
      cbn [Nat.b2n Nat.add Nat.eqb negb orb andb] in H; cbv zeta in H;
      match type of H with
      | context [unfurl_freq ?p ?f ?e ?i ?d0 ?r0] =>
          destruct (unfurl_freq p f e i d0 r0) as [e' | [d1 rem1]] eqn:Hfreq
      end;
      try discriminate H.
    all: injection H as ->.
    all: clear -Hfreq; exfalso; revert Hfreq;
      generalize (∅ : gmap string Expr) (∅ : gset string);
      match goal with
      | |- context [unfurl_freq ?p ?f ?e ?i] => generalize i
      end;
      intros items; induction items as [| [k i] items IH]; intros d0 r0;
      cbn [unfurl_freq]; [discriminate |];
      destruct es; [apply IH | discriminate].
  - intros Hnot. destruct fr, sr, ffs; cbn [Nat.b2n Nat.add Nat.eqb negb];
      try reflexivity; exfalso; apply Hnot; tauto.
Qed.

(** X7.  Every frequency entry that [unfurl_nested_annotations] marks for
    removal is a field of the struct it returns: the removal set never names
    a field that is not there. *)
Theorem unfurl_removes_only_fields t fr sr ffs es d rem :
  unfurl_nested_annotations COHORT t fr sr ffs es = Return (d, rem) →
  rem ⊆ dom d.
Proof.
  intros H. apply unfurl_returns in H as (d0 & Hfreq & Hd).
  destruct es as [es |].
  - apply unfurl_freq_spec in Hfreq as (_ & Hsub & _).
    etrans; [apply Hsub; set_solver | exact Hd].
  - destruct (index_dict t _) as [| [k i] items]; cbn [unfurl_freq] in Hfreq.
    + injection Hfreq as _ <-. set_solver.
    + discriminate Hfreq.
Qed.

(** X8.  A key is marked for removal exactly when it is one of the four
    keys (AC, AN, AF, nhomalt) of an entry of the frequency index whose
    label, cut at its first hyphen, is in [entries_to_remove]; popmax, faf
    and age-histogram fields are never marked. *)
Theorem unfurl_removal_set t fr sr ffs es d rem key :
  unfurl_nested_annotations COHORT t fr sr ffs (Some es) = Return (d, rem) →
  let prefix := if ffs then COHORT +:+ "-" else "" in
  let freq_idx :=
    index_dict t
      (if sr then "hgdp_tgp_freq_index_dict"
       else (if ffs then COHORT +:+ "_" else "") +:+ "freq_index_dict") in
  key ∈ rem
  ↔ ∃ k i, (k, i) ∈ freq_idx
           ∧ default "" (head (str_split "-" k)) ∈ es
           ∧ key ∈ [prefix +:+ "AC-" +:+ k; prefix +:+ "AN-" +:+ k;
                    prefix +:+ "AF-" +:+ k; prefix +:+ "nhomalt-" +:+ k].
Proof.
  intros H. cbv zeta. apply unfurl_returns in H as (d0 & Hfreq & _).
  apply unfurl_freq_spec in Hfreq as (_ & _ & Hrem). rewrite Hrem.
  split.
  - intros [Hk | Hk]; [set_solver | exact Hk].
  - intros Hk. right. exact Hk.
Qed.

(** X9.  With [entries_to_remove] left at its default [None] and a valid
    mode, the call raises a TypeError as soon as the frequency index has an
    entry: the membership test of line 578 runs on [None]. *)
Theorem unfurl_without_entries_to_remove t fr sr ffs :
  (fr = true ∧ sr = false ∧ ffs = false)
  ∨ (fr = false ∧ sr = true ∧ ffs = false)
  ∨ (fr = false ∧ sr = false ∧ ffs = true) →
  index_dict t
    (if sr then "hgdp_tgp_freq_index_dict"
     else (if ffs then COHORT +:+ "_" else "") +:+ "freq_index_dict") ≠ [] →
  unfurl_nested_annotations COHORT t fr sr ffs None
  = Raise (TypeError not_iterable_msg).
Proof.
  intros Hone Hidx. unfold unfurl_nested_annotations.
  destruct Hone as [(-> & -> & ->) | [(-> & -> & ->) | (-> & -> & ->)]];
    cbn [Nat.b2n Nat.add Nat.eqb negb]; cbv zeta;
    destruct (index_dict t _) as [| [k i] items]; try congruence; reflexivity.
Qed.

(** All keys of a frequency entry hold a hyphen. *)
Lemma freq_combo_dict_hyphen prefix freq k i key :
  key ∈ map fst (freq_combo_dict prefix freq k i) →
  contains_char "-" key = true.
Proof.
  unfold freq_combo_dict. cbn [map fst]. intros H.
  repeat (apply elem_of_cons in H as [-> | H];
          [rewrite !contains_char_app; cbn [contains_char Ascii.eqb Bool.eqb];
           rewrite ?orb_true_r; reflexivity |]).
  inversion H.
Qed.

(** X10.  For a subset release [_prepare_vcf_ht] unfurls twice and hands
    the keys removed by the first call to the second as its
    [entries_to_remove].  Those keys all hold a hyphen, no frequency label
    cut at its first hyphen does, so the second call marks nothing: the
    table always ends with an empty [freq_entries_to_remove], whatever set
    the caller gave. *)
Theorem prepare_vcf_ht_subset_removes_nothing ht fer info rem :
  prepare_vcf_ht COHORT ht true fer = Return (info, rem) →
  rem = ∅.
Proof.
  unfold prepare_vcf_ht. cbn [negb].
  destruct (unfurl_nested_annotations COHORT ht false true false fer)
    as [e | [info1 rem1]] eqn:H1; [discriminate |].
  destruct (unfurl_nested_annotations COHORT ht false false true (Some rem1))
    as [e | [info2 rem2]] eqn:H2; [discriminate |].
  intros [= _ <-].
  assert (Hrem2 : rem2 = ∅); [| rewrite Hrem2; case_bool_decide; reflexivity].
  apply set_eq. intros key. split; [| set_solver].
  intros Hkey. exfalso.
  apply unfurl_returns in H2 as (d2 & Hfreq2 & _).
  apply unfurl_freq_spec in Hfreq2 as (_ & _ & Hspec2).
  apply Hspec2 in Hkey as [Hkey | (k & i & _ & Hes & _)]; [set_solver |].
  apply unfurl_returns in H1 as (d1 & Hfreq1 & _).
  destruct fer as [es |].
  - apply unfurl_freq_spec in Hfreq1 as (_ & _ & Hspec1).
    apply Hspec1 in Hes as [Hes | (k' & i' & _ & _ & Hes)]; [set_solver |].
    apply freq_combo_dict_hyphen in Hes.
    rewrite (str_split_head_char "-" k) in Hes. discriminate.
  - destruct (index_dict ht _) as [| [k' i'] items]; cbn [unfurl_freq] in Hfreq1.
    + injection Hfreq1 as _ <-. set_solver.
    + discriminate.
Qed.

Lemma info_field_name_hyphen (x : string) :
  contains_char "-" (info_field_name x) = false.
Proof. apply str_replace_char. reflexivity. Qed.

(** X11.  The names of the INFO fields after [_cleanup_ht_for_vcf_export]
    and the keys of the INFO header after [prepare_vcf_header_dict] hold no
    hyphen, whatever the names were before. *)
Theorem info_names_without_hyphen (x : string) :
  contains_char "-" (info_field_name x) = false
  ∧ contains_char "-" (header_info_key x) = false.
Proof. split; [apply info_field_name_hyphen | apply str_replace_char; reflexivity]. Qed.

(** X12.  The renaming of the INFO fields keeps a name that holds no
    hyphen, and so renaming twice is renaming once. *)
Theorem info_field_name_idempotent (x : string) :
  info_field_name (info_field_name x) = info_field_name x
  ∧ (contains_char "-" x = false → info_field_name x = x).
Proof.
  assert (H : ∀ y, contains_char "-" y = false → info_field_name y = y).
  { intros y Hy. unfold info_field_name.
    rewrite (str_replace_absent "-" "adj" "" y Hy).
    apply (str_replace_absent "-" "" "_" y Hy). }
  split; [| apply H]. apply H, info_field_name_hyphen.
Qed.

End ReleaseVcfFacts.

Lemma unfurl_removes_only_fields_witness :
  ∃ d rem,
    ReleaseVcf.unfurl_nested_annotations "tob" example_table true false false
      (Some {["oth"]}) = Return (d, rem)
    ∧ rem ⊆ dom d.
Proof.
  eexists _, _. split; [reflexivity |].
  eapply (unfurl_removes_only_fields "tob" example_table true false false
            (Some {["oth"]})).
  reflexivity.
Defined.

Lemma unfurl_removal_set_witness :
  ∃ d rem,
    ReleaseVcf.unfurl_nested_annotations "tob" example_table false false true
      (Some {["oth"]}) = Return (d, rem)
    ∧ ("tob-AC-oth-adj" ∈ rem
       ↔ ∃ k i, (k, i) ∈ ReleaseVcf.index_dict example_table "tob_freq_index_dict"
                ∧ default "" (head (str_split "-" k)) ∈ ({["oth"]} : gset string)
                ∧ "tob-AC-oth-adj"
                  ∈ ["tob-" +:+ "AC-" +:+ k; "tob-" +:+ "AN-" +:+ k;
                     "tob-" +:+ "AF-" +:+ k; "tob-" +:+ "nhomalt-" +:+ k]).
Proof.
  eexists _, _. split; [reflexivity |].
  eapply (unfurl_removal_set "tob" example_table false false true {["oth"]}).
  reflexivity.
Defined.

Lemma unfurl_without_entries_to_remove_witness :
  ReleaseVcf.unfurl_nested_annotations "tob" example_table false true false None
  = Raise (TypeError ReleaseVcf.not_iterable_msg).
Proof.
  apply (unfurl_without_entries_to_remove "tob" example_table false true false).
  - right. left. repeat split.
  - discriminate.
Defined.

Lemma prepare_vcf_ht_subset_removes_nothing_witness :
  ∃ info rem,
    ReleaseVcf.prepare_vcf_ht "tob" example_table true (Some {["oth"]})
    = Return (info, rem)
    ∧ rem = ∅.
Proof.
  eexists _, _. split; [reflexivity |].
  eapply (prepare_vcf_ht_subset_removes_nothing "tob" example_table
            (Some {["oth"]})).
  reflexivity.
Defined.

(** ** scripts/generate_qc_annotations.py *)

Section QcAnnotationsFacts.

Import QcAnnotations.

Lemma file_exists_insert (store : gmap string File) p q f :
  file_exists (<[p := f]> store) q = String.eqb p q || file_exists store q.
Proof.
  unfold file_exists.
  destruct (String.eqb_spec p q) as [-> | Hne]; cbn [orb].
  - rewrite lookup_insert_eq. apply bool_decide_eq_true_2. eauto.
  - rewrite lookup_insert_ne by exact Hne. reflexivity.
Qed.

(** X13.  After [compute_info] the info table exists, and so does the VCF
    when a path for it was given.  A second run without [overwrite] then
    changes nothing in the store, whatever its [split_multiallelic] flag:
    the table is reused as it was written. *)
Theorem compute_info_idempotent store out_ht_path out_vcf_path overwrite split split' :
  let r := compute_info store out_ht_path out_vcf_path overwrite split in
  file_exists r.1 out_ht_path = true
  ∧ (truthy_str out_vcf_path = true → file_exists r.1 (fmt_opt out_vcf_path) = true)
  ∧ (compute_info r.1 out_ht_path out_vcf_path false split').1 = r.1.
Proof.
  cbv zeta.
  assert (Hpost :
    file_exists (compute_info store out_ht_path out_vcf_path overwrite split).1
      out_ht_path = true
    ∧ (truthy_str out_vcf_path = true →
       file_exists (compute_info store out_ht_path out_vcf_path overwrite split).1
         (fmt_opt out_vcf_path) = true)).
  { unfold compute_info.
    destruct (negb overwrite && file_exists store out_ht_path) eqn:Hreuse.
    - apply andb_true_iff in Hreuse as [_ Hht].
      destruct (truthy_str out_vcf_path); cbn [andb].
      + destruct (negb (file_exists store (fmt_opt out_vcf_path)) || overwrite) eqn:Hv;
          cbn [fst].
        * rewrite !file_exists_insert, Hht, String.eqb_refl, orb_true_r. auto.
        * apply orb_false_elim in Hv as [Hv _]. apply negb_false_iff in Hv. auto.
      + cbn [fst]. split; [exact Hht | discriminate].
    - destruct (truthy_str out_vcf_path); cbn [andb].
      + destruct (negb (file_exists _ (fmt_opt out_vcf_path)) || overwrite) eqn:Hv;
          cbn [fst].
        * rewrite !file_exists_insert, !String.eqb_refl, orb_true_r. auto.
        * apply orb_false_elim in Hv as [Hv _]. apply negb_false_iff in Hv.
          rewrite file_exists_insert, String.eqb_refl. auto.
      + cbn [fst]. rewrite file_exists_insert, String.eqb_refl.
        split; [reflexivity | discriminate]. }
  destruct Hpost as [Hht Hvcf]. split; [exact Hht |]. split; [exact Hvcf |].
  generalize dependent (compute_info store out_ht_path out_vcf_path overwrite split).1.
  intros store1 Hht Hvcf. unfold compute_info. cbn [negb andb]. rewrite Hht.
  destruct (truthy_str out_vcf_path); cbn [andb]; [| reflexivity].
  rewrite Hvcf by reflexivity. reflexivity.
Qed.


End QcAnnotationsFacts.

(** ** scripts/final_filter.py *)

Section FilterTableFacts.

Import FilterTable.

Lemma Result_bind_Return {A B : Type} (m : Result A) (f : A → Result B) (b : B) :
  m ≫= f = Return b → ∃ a, m = Return a ∧ f a = Return b.
Proof. destruct m as [e | a]; [discriminate |]. intros H. exists a. auto. Qed.

Lemma read_local_Return {A : Type} name (v : option A) (a : A) :
  read_local name v = Return a → v = Some a.
Proof. destruct v; [intros [= ->]; reflexivity | discriminate]. Qed.

(** What the two blocks of a class leave in its cutoff struct. *)
Lemma class_cutoff T snv name bin_cutoff score_cutoff lo hi r g :
  resolve_bin T snv bin_cutoff score_cutoff = Return r →
  check_range name r.1 lo hi r.2 = Return (Some g) →
  (truthy_int bin_cutoff || truthy_float score_cutoff = true)
  ∧ (∀ z, cutoff_bin g = Some z →
          bin_cutoff = Some z ∧ truthy_float (cutoff_min_score g) = false).
Proof.
  unfold resolve_bin, check_range.
  destruct bin_cutoff as [bin |]; cbn [truthy_int].
  - destruct (negb (bin =? 0)%Z); cbn [orb].
    + intros H. apply Result_bind_Return in H as (score & _ & [= <-]).
      cbn [fst snd]. destruct score as [cutoff |].
      * destruct (negb (Qeq_bool cutoff 0)) eqn:Hz.
        -- intros H. apply Result_bind_Return in H as (out & _ & H).
           destruct out; [discriminate |]. injection H as <-.
           split; [reflexivity |]. discriminate.
        -- intros [= <-]. split; [reflexivity |]. cbn. intros z [= ->].
           split; [reflexivity | exact Hz].
      * intros [= <-]. split; [reflexivity |]. cbn. intros z [= ->]. auto.
    + intros [= <-]. cbn [fst snd]. destruct score_cutoff as [cutoff |];
        [| discriminate]. cbn [truthy_float].
      destruct (negb (Qeq_bool cutoff 0)); [| discriminate].
      intros H. apply Result_bind_Return in H as (out & _ & H).
      destruct out; [discriminate |]. injection H as <-.
      split; [reflexivity |]. discriminate.
  - intros [= <-]. cbn [fst snd orb]. destruct score_cutoff as [cutoff |];
      [| discriminate]. cbn [truthy_float].
    destruct (negb (Qeq_bool cutoff 0)); [| discriminate].
    intros H. apply Result_bind_Return in H as (out & _ & H).
    destruct out; [discriminate |]. injection H as <-.
    split; [reflexivity |]. discriminate.
Qed.

(** What a call that returns has gone through. *)
Lemma generate_final_filter_ht_Return T model_name score_name sb ib ss is_ agg bid fm :
  generate_final_filter_ht T model_name score_name sb ib ss is_ agg bid = Return fm →
  ∃ snp indel lo hi,
    resolve_bin T true sb ss = Return snp
    ∧ resolve_bin T false ib is_ = Return indel
    ∧ check_range "snp_score_cutoff" snp.1 lo hi snp.2 = Return (Some (snv_cutoff fm))
    ∧ check_range "indel_score_cutoff" indel.1 lo hi indel.2
      = Return (Some (indel_cutoff fm))
    ∧ model_name ≠ "RF"
    ∧ fm_model_name fm = model_name
    ∧ fm_score_name fm = score_name.
Proof.
  unfold generate_final_filter_ht.
  destruct (FinalFilter.generate_final_filter_ht_checks _ _ _ _ _ _);
    try discriminate.
  intros H.
  apply Result_bind_Return in H as (snp & Hsnp & H).
  apply Result_bind_Return in H as (indel & Hindel & H).
  apply Result_bind_Return in H as (lo & _ & H).
  apply Result_bind_Return in H as (hi & _ & H).
  apply Result_bind_Return in H as (sg & Hsg & H).
  apply Result_bind_Return in H as (ig & Hig & H).
  apply Result_bind_Return in H as (missing & _ & H).
  destruct missing; [discriminate |].
  apply Result_bind_Return in H as (sc & Hsc & H).
  apply Result_bind_Return in H as (ic & Hic & H).
  apply Result_bind_Return in H as (u1 & _ & H).
  apply Result_bind_Return in H as (ann & Hann & H).
  apply Result_bind_Return in H as (u2 & Hupd & H).
  apply Result_bind_Return in H as (u3 & _ & H).
  injection H as <-. cbn [snv_cutoff indel_cutoff fm_model_name fm_score_name].
  apply read_local_Return in Hsc as ->. apply read_local_Return in Hic as ->.
  exists snp, indel, lo, hi. repeat (split; [assumption || reflexivity |]).
  split; [| split; reflexivity].
  intros ->. cbn [String.eqb Ascii.eqb Bool.eqb] in Hann.
  apply Result_bind_Return in Hann as (u4 & _ & [= <-]). discriminate.
Qed.

(** X15.  With [model_name] [RF], [generate_final_filter_ht] never returns
    a table, whatever the tables and cutoffs: line 165 rebinds
    [annotations_expr] to the [None] that [dict.update] returns, and the
    update of line 171 then fails with an AttributeError, unless an earlier
    step has already raised. *)
Theorem rf_model_never_returns T score_name sb ib ss is_ agg bid :
  ∃ e, generate_final_filter_ht T "RF" score_name sb ib ss is_ agg bid = Raise e.
Proof.
  destruct (generate_final_filter_ht T "RF" score_name sb ib ss is_ agg bid)
    as [e | fm] eqn:H; [exists e; reflexivity |].
  apply generate_final_filter_ht_Return in H
    as (? & ? & ? & ? & _ & _ & _ & _ & Hrf & _).
  congruence.
Qed.

(** X16.  [generate_final_filter_ht] returns only if each class has a
    truthy cutoff.  A bin cutoff of 0 or a score cutoff of 0.0 is not
    [None], so it passes the parameter checks; the truthiness tests of lines
    97-132 then skip it, the cutoff struct of its class stays unbound, and
    the call raises. *)
Theorem returns_only_with_truthy_cutoffs T model_name score_name sb ib ss is_ agg bid fm :
  generate_final_filter_ht T model_name score_name sb ib ss is_ agg bid = Return fm →
  (truthy_int sb || truthy_float ss = true)
  ∧ (truthy_int ib || truthy_float is_ = true).
Proof.
  intros H.
  apply generate_final_filter_ht_Return in H
    as (snp & indel & lo & hi & Hs & Hi & Hsg & Hig & _).
  split.
  - apply (class_cutoff _ _ _ _ _ _ _ _ _ Hs Hsg).
  - apply (class_cutoff _ _ _ _ _ _ _ _ _ Hi Hig).
Qed.

(** X17.  The [filtering_model] of a returned table records a bin for a
    class only if that bin was the cutoff supplied and the score it resolved
    to is missing or zero.  A bin that resolves to a non-zero score is
    replaced by that score alone (lines 127 and 132): the bin is not
    recorded. *)
Theorem recorded_bin_has_no_score T model_name score_name sb ib ss is_ agg bid fm :
  generate_final_filter_ht T model_name score_name sb ib ss is_ agg bid = Return fm →
  (∀ z, cutoff_bin (snv_cutoff fm) = Some z →
        sb = Some z ∧ truthy_float (cutoff_min_score (snv_cutoff fm)) = false)
  ∧ (∀ z, cutoff_bin (indel_cutoff fm) = Some z →
          ib = Some z ∧ truthy_float (cutoff_min_score (indel_cutoff fm)) = false).
Proof.
  intros H.
  apply generate_final_filter_ht_Return in H
    as (snp & indel & lo & hi & Hs & Hi & Hsg & Hig & _).
  split.
  - apply (class_cutoff _ _ _ _ _ _ _ _ _ Hs Hsg).
  - apply (class_cutoff _ _ _ _ _ _ _ _ _ Hi Hig).
Qed.

(** X18.  A column whose name ends in [bin] is renamed in one of two ways:
    a name [p ++ "adj_" ++ q] becomes [p ++ q], or the name gets the prefix
    [raw_].  Either way the new name differs from the old one. *)
Theorem bin_name_cases (x : string) :
  ((∃ p q, x = p +:+ "adj_" +:+ q ∧ bin_name x = p +:+ q)
   ∨ bin_name x = "raw_" +:+ x)
  ∧ bin_name x ≠ x.
Proof.
  assert (H : (∃ p q, x = p +:+ "adj_" +:+ q ∧ bin_name x = p +:+ q)
              ∨ bin_name x = "raw_" +:+ x).
  { unfold bin_name. cbv zeta.
    pose proof (str_split_join "adj_" x ltac:(discriminate)) as Hj.
    destruct (str_split "adj_" x) as [| p [| q [| r ps]]]; cbn [length Nat.eqb];
      try (right; reflexivity).
    left. exists p, q. cbn [str_join] in Hj. split; [symmetry; exact Hj |].
    reflexivity. }
  split; [exact H |].
  intros Heq. apply (f_equal String.length) in Heq.
  destruct H as [(p & q & Hx & Hb) | Hb]; rewrite Hb in Heq.
  - rewrite Hx, !string_length_append in Heq. cbn [String.length] in Heq. lia.
  - rewrite string_length_append in Heq. cbn [String.length] in Heq. lia.
Qed.

End FilterTableFacts.

Lemma returns_only_with_truthy_cutoffs_witness :
  ∃ fm,
    FilterTable.generate_final_filter_ht example_tables "VQSR" "AS_VQSLOD"
      (Some 90%Z) None None (Some (1 # 2)%Q) (Some "agg.ht") (Some "bin")
    = Return fm
    ∧ (FilterTable.truthy_int (Some 90%Z) || FilterTable.truthy_float None = true)
    ∧ (FilterTable.truthy_int None || FilterTable.truthy_float (Some (1 # 2)%Q)
       = true).
Proof.
  eexists. split; [vm_compute; reflexivity |].
  eapply (returns_only_with_truthy_cutoffs example_tables "VQSR" "AS_VQSLOD"
            (Some 90%Z) None None (Some (1 # 2)%Q) (Some "agg.ht") (Some "bin")).
  vm_compute. reflexivity.
Defined.

Lemma recorded_bin_has_no_score_witness :
  ∃ fm,
    FilterTable.generate_final_filter_ht example_tables "VQSR" "AS_VQSLOD"
      (Some 100%Z) None None (Some (1 # 2)%Q) (Some "agg.ht") (Some "bin")
    = Return fm
    ∧ FilterTable.cutoff_bin (FilterTable.snv_cutoff fm) = Some 100%Z
    ∧ (∀ z, FilterTable.cutoff_bin (FilterTable.snv_cutoff fm) = Some z →
            Some 100%Z = Some z
            ∧ FilterTable.truthy_float
                (FilterTable.cutoff_min_score (FilterTable.snv_cutoff fm)) = false)
    ∧ (∀ z, FilterTable.cutoff_bin (FilterTable.indel_cutoff fm) = Some z →
            None = Some z
            ∧ FilterTable.truthy_float
                (FilterTable.cutoff_min_score (FilterTable.indel_cutoff fm)) = false).
Proof.
  eexists. split; [vm_compute; reflexivity |]. split; [reflexivity |].
  eapply (recorded_bin_has_no_score example_tables "VQSR" "AS_VQSLOD"
            (Some 100%Z) None None (Some (1 # 2)%Q) (Some "agg.ht") (Some "bin")).
  vm_compute. reflexivity.
Defined.
